(** * ShadowFeed: the payment-gated access protocol

    A shallow embedding of the facilitator (src/facilitator.ts, embedded a
    second time in src/server.ts), of the query ledger (src/db.ts) and of the
    route handlers of src/server.ts, with the properties of the protocol
    specification stated and settled against them.

    Conventions.
    - A JavaScript value that may be [undefined] is an [option]; the empty
      string is falsy, so [a || b] on strings is [or_else].
    - BigInt values are [Z]; a deserialised Stacks amount is an unsigned
      64-bit integer and is an [N].
    - A string is the list of its UTF-8 bytes; where the code reads UTF-16
      code units ([charCodeAt]) the bytes are decoded.  [slice] counts
      bytes, which are the code units of the ASCII text it is applied to
      (hexadecimal signers, Stacks addresses).
    - The process is single threaded: a handler runs without interruption
      between two [await]s.  The world outside (clock, Stacks node, console,
      SQLite file) is threaded through every handler as a [World]; what the
      Stacks libraries and the network answer is an [Env] of oracles. *)

From Stdlib Require Import ZArith NArith String Ascii List Lia Floats.
From stdpp Require Import base gmap strings list pretty sorting.
From Equations Require Import Equations.

Import ListNotations.
Local Open Scope Z_scope.

(* ===================================================================== *)
(** ** JavaScript values and builtins the handlers rely on *)
(* ===================================================================== *)

Module Js.

(** [x || d] where [x : string | undefined]. *)
Definition truthy (x : option string) : bool :=
  match x with
  | Some s => negb (String.eqb s "")
  | None => false
  end.

Definition or_else (x : option string) (d : string) : string :=
  match x with
  | Some s => if String.eqb s "" then d else s
  | None => d
  end.

(** [x || y] where both sides may be [undefined]. *)
Definition or_opt (x y : option string) : option string :=
  if truthy x then x else y.

(** [x || null] as stored in a nullable column. *)
Definition or_null (x : option string) : option string :=
  if truthy x then x else None.

(** A template literal prints [undefined] for a missing value. *)
Definition show (x : option string) : string :=
  match x with
  | Some s => s
  | None => "undefined"
  end.

(** [s.slice(0, n)]. *)
Definition slice0 (n : nat) (s : string) : string := String.substring 0 n s.

(** [s.startsWith(p)]. *)
Definition startsWith (p s : string) : bool := String.prefix p s.

(** The value of a JSON field that is read as an amount: absent, a string,
    or an integral number. *)
Inductive value : Type :=
| Undefined
| Str (s : string)
| Num (z : Z).

(** [v || '0']. *)
Definition or_zero (v : value) : value :=
  match v with
  | Undefined => Str "0"
  | Str s => if String.eqb s "" then Str "0" else Str s
  | Num z => if Z.eqb z 0 then Str "0" else Num z
  end.

(** Text is kept as its UTF-8 bytes.  The white space and line terminators
    of ECMAScript (StrWhiteSpaceChar) that are one byte long: TAB, LF, VT,
    FF, CR and SP. *)
Definition is_space (c : ascii) : bool :=
  match c with
  | " " | "009" | "010" | "011" | "012" | "013" => true
  | _ => false
  end%char.

(** The last byte of the three-byte ones that begin with E2 80:
    U+2000 to U+200A, U+2028, U+2029 and U+202F. *)
Definition is_space_E2_80 (c : ascii) : bool :=
  let n := Z.of_nat (nat_of_ascii c) in
  ((128 <=? n) && (n <=? 138)) || (n =? 168) || (n =? 169) || (n =? 175).

(** White space dropped at the start: the one-byte characters, U+00A0
    (C2 A0), U+1680 (E1 9A 80), those of [is_space_E2_80], U+205F
    (E2 81 9F), U+3000 (E3 80 80) and U+FEFF (EF BB BF). *)
Fixpoint trim_start (s : string) : string :=
  match s with
  | EmptyString => EmptyString
  | String c r =>
      if is_space c then trim_start r
      else
        match c, r with
        | "194", String "160" r1 => trim_start r1
        | "225", String "154" (String "128" r2) => trim_start r2
        | "226", String "128" (String c2 r2) =>
            if is_space_E2_80 c2 then trim_start r2 else s
        | "226", String "129" (String "159" r2) => trim_start r2
        | "227", String "128" (String "128" r2) => trim_start r2
        | "239", String "187" (String "191" r2) => trim_start r2
        | _, _ => s
        end
  end%char.

(** The same characters dropped at the start of the reversed bytes, that
    is at the end of the text. *)
Fixpoint trim_start_rev (s : string) : string :=
  match s with
  | EmptyString => EmptyString
  | String c r =>
      if is_space c then trim_start_rev r
      else
        match c, r with
        | "160", String "194" r1 => trim_start_rev r1
        | "128", String "154" (String "225" r2) => trim_start_rev r2
        | "159", String "129" (String "226" r2) => trim_start_rev r2
        | "128", String "128" (String "227" r2) => trim_start_rev r2
        | "191", String "187" (String "239" r2) => trim_start_rev r2
        | _, String "128" (String "226" r2) =>
            if is_space_E2_80 c then trim_start_rev r2 else s
        | _, _ => s
        end
  end%char.

Definition trim (s : string) : string :=
  String.rev (trim_start_rev (String.rev (trim_start s))).

Definition digit_value (c : ascii) : option Z :=
  let n := Z.of_nat (nat_of_ascii c) in
  if (48 <=? n) && (n <=? 57) then Some (n - 48)
  else if (97 <=? n) && (n <=? 102) then Some (n - 87)
  else if (65 <=? n) && (n <=? 70) then Some (n - 55)
  else None.

Fixpoint digits (radix : Z) (acc : Z) (s : string) : option Z :=
  match s with
  | EmptyString => Some acc
  | String c r =>
      match digit_value c with
      | Some d => if d <? radix then digits radix (acc * radix + d) r else None
      | None => None
      end
  end.

(** One digit at least. *)
Definition number (radix : Z) (s : string) : option Z :=
  match s with
  | EmptyString => None
  | _ => digits radix 0 s
  end.

(** StringToBigInt of ECMAScript: surrounding white space dropped, the
    empty string is zero, a decimal literal may carry a sign, a literal
    with prefix 0x, 0o or 0b may not. *)
Definition StringToBigInt (s : string) : option Z :=
  match trim s with
  | EmptyString => Some 0
  | String "0" (String ("x" | "X") r) => number 16 r
  | String "0" (String ("o" | "O") r) => number 8 r
  | String "0" (String ("b" | "B") r) => number 2 r
  | String "+" r => number 10 r
  | String "-" r => option_map Z.opp (number 10 r)
  | t => number 10 t
  end%char.

(** [BigInt(v)]: the integer, or the message of the error thrown. *)
Definition BigInt (v : value) : Z + string :=
  match v with
  | Undefined => inr "Cannot convert undefined to a BigInt"
  | Num z => inl z
  | Str s =>
      match StringToBigInt s with
      | Some z => inl z
      | None => inr ("Cannot convert " +:+ s +:+ " to a BigInt")
      end
  end.

End Js.

(** The object a feed generator returns, kept as the text
    [JSON.stringify] gives for it. *)
Record FeedData : Type := { json : string }.

(* ===================================================================== *)
(** ** The query ledger (src/db.ts) *)
(* ===================================================================== *)

Module Db.

(** A row of table [queries]. *)
Record QueryRow : Type := {
  id : Z;
  feed_id : string;
  payer : option string;
  tx_hash : option string;
  response_ms : Z;
  response_data : option string;
  created_at : Z
}.

(** A row of table [feed_stats], keyed by its [feed_id]. *)
Record FeedStat : Type := {
  total_queries : Z;
  total_errors : Z;
  avg_response_ms : float;
  last_query_at : option Z
}.

(** The database file: [queries] in insertion order, the AUTOINCREMENT
    counter of [queries], and [feed_stats] under its primary key.  The
    schema declares no UNIQUE constraint and no index on [tx_hash]. *)
Record t : Type := {
  queries : list QueryRow;
  queries_seq : Z;
  feed_stats : gmap string FeedStat
}.

Definition initFeed (feedId : string) (m : gmap string FeedStat)
  : gmap string FeedStat :=
  match m !! feedId with
  | Some _ => m
  | None =>
      <[feedId := {| total_queries := 0; total_errors := 0;
                     avg_response_ms := 0%float; last_query_at := None |}]> m
  end.

(** The database after the module is loaded on a fresh file. *)
Definition init : t :=
  {| queries := [];
     queries_seq := 0;
     feed_stats :=
       foldl (fun m f => initFeed f m) ∅
             ["whale-alerts"; "btc-sentiment"; "defi-scores"] |}.

(** [unixepoch()] for a clock in milliseconds. *)
Definition unixepoch (now : Z) : Z := now / 1000.

(** An INTEGER operand of REAL arithmetic, a signed 64-bit integer taken to
    the nearest double; SQLite computes [avg_response_ms] in IEEE doubles. *)
Definition real (z : Z) : float :=
  if z <? 0 then (- PrimFloat.of_uint63 (Uint63.of_Z (- z)))%float
  else PrimFloat.of_uint63 (Uint63.of_Z z).

Definition updateStats (now responseMs : Z) (s : FeedStat) : FeedStat :=
  {| total_queries := total_queries s + 1;
     total_errors := total_errors s;
     avg_response_ms :=
       ((avg_response_ms s * real (total_queries s) + real responseMs)
        / real (total_queries s + 1))%float;
     last_query_at := Some (unixepoch now) |}.

(** [recordQuery]: one INSERT into [queries] and one UPDATE of
    [feed_stats] in a single transaction. *)
Definition recordQuery (now : Z) (feedId : string)
    (payer txHash : option string) (responseMs : Z)
    (responseData : option FeedData) (db : t) : t :=
  let dataJson := option_map json responseData in
  let row := {| id := queries_seq db + 1;
                feed_id := feedId;
                payer := Js.or_null payer;
                tx_hash := Js.or_null txHash;
                response_ms := responseMs;
                response_data := dataJson;
                created_at := unixepoch now |} in
  {| queries := queries db ++ [row];
     queries_seq := queries_seq db + 1;
     feed_stats := alter (updateStats now responseMs) feedId (feed_stats db) |}.

(** The records of a resource that carry a given transaction identifier. *)
Definition records_of (feedId txId : string) (db : t) : list QueryRow :=
  filter (fun r => feed_id r = feedId ∧ tx_hash r = Some txId) (queries db).

End Db.

(* ===================================================================== *)
(** ** What the Stacks libraries hand to the facilitator *)
(* ===================================================================== *)

Module Stacks.

(** [tx.auth.spendingCondition]: the fields [extractPayer] reads. *)
Record SpendingCondition : Type := {
  signer : option string;
  address : option string
}.

Record Authorization : Type := {
  spendingCondition : option SpendingCondition
}.

(** [tx.payload]: a token transfer carries an unsigned 64-bit [amount] and
    a [recipient]; other payload kinds carry neither. *)
Record Payload : Type := {
  amount : option N;
  recipient : option string
}.

(** The object [deserializeTransaction] returns. *)
Record Transaction : Type := {
  auth : option Authorization;
  payload : Payload
}.

(** What [broadcastTransaction] resolves to: a bare transaction identifier,
    an object [{ txid }] or [{ error, reason }], or a thrown error. *)
Inductive BroadcastResult : Type :=
| Txid (txid : string)
| Object (txid error reason : option string)
| Threw (message : string).

End Stacks.

(* ===================================================================== *)
(** ** The world a handler runs in *)
(* ===================================================================== *)

(** Mutable state outside the handler: the clock in milliseconds, the
    transactions handed to the node so far (with the base URL used), the
    console, and the SQLite file. *)
Record World : Type := {
  now : Z;
  sent : list (Stacks.Transaction * string);
  console : list string;
  database : Db.t
}.

Definition log (line : string) (w : World) : World :=
  {| now := now w; sent := sent w; console := console w ++ [line];
     database := database w |}.

Definition tick (ms : Z) (w : World) : World :=
  {| now := now w + ms; sent := sent w; console := console w;
     database := database w |}.

Definition set_now (t : Z) (w : World) : World :=
  {| now := t; sent := sent w; console := console w; database := database w |}.

Definition with_database (f : Db.t -> Db.t) (w : World) : World :=
  {| now := now w; sent := sent w; console := console w;
     database := f (database w) |}.

(** The feeds served. *)
Inductive Feed : Type := WhaleAlerts | BtcSentiment | DefiScores.

(** The answers of the libraries and of the network.
    - [deserializeTransaction hex]: the transaction, or the message thrown;
    - [broadcastTransaction earlier t tx baseUrl]: the node's answer at time
      [t], after the broadcasts [earlier];
    - [axios_get t url]: the [tx_status] of the response to a GET issued at
      time [t], [None] when the request fails or carries no such string;
    - [http_ms]: how long one HTTP round trip takes;
    - [generate feed t]: the data a feed generator builds at time [t] and the
      time it takes (the generators catch their own network failures). *)
Record Env : Type := {
  deserializeTransaction : string -> Stacks.Transaction + string;
  broadcastTransaction :
    list (Stacks.Transaction * string) -> Z -> Stacks.Transaction -> string
    -> Stacks.BroadcastResult;
  axios_get : Z -> string -> option string;
  http_ms : N;
  generate : Feed -> Z -> FeedData * N
}.

(** An HTTP response: status code and JSON body. *)
Record Response (B : Type) : Type := { status : Z; body : B }.
Arguments status {B} _.
Arguments body {B} _.

Definition json_ok {B : Type} (b : B) : Response B := {| status := 200; body := b |}.

(* ===================================================================== *)
(** ** The facilitator (src/facilitator.ts) *)
(* ===================================================================== *)

Module Facilitator.

Definition STACKS_API_TESTNET : string := "https://api.testnet.hiro.so".
Definition STACKS_API_MAINNET : string := "https://api.hiro.so".

(** [paymentPayload]: the transaction sits in [payload.transaction] or in
    [transaction]. *)
Record Inner : Type := { inner_transaction : option string }.

Record PaymentPayload : Type := {
  payload : option Inner;
  transaction : option string
}.

(** [paymentRequirements]: [payTo] is on the wire but no handler reads it. *)
Record PaymentRequirements : Type := {
  amount : Js.value;
  network : option string;
  payTo : option string
}.

Record Request : Type := {
  paymentPayload : option PaymentPayload;
  paymentRequirements : option PaymentRequirements
}.

(** [paymentPayload?.payload?.transaction || paymentPayload?.transaction] *)
Definition txHex_of (p : PaymentPayload) : option string :=
  Js.or_opt (match payload p with
             | Some i => inner_transaction i
             | None => None
             end)
            (transaction p).

(** [tx.auth?.spendingCondition?.signer] and [...?.address] *)
Definition signer_of (tx : Stacks.Transaction) : option string :=
  a ← Stacks.auth tx; sc ← Stacks.spendingCondition a; Stacks.signer sc.

Definition address_of (tx : Stacks.Transaction) : option string :=
  a ← Stacks.auth tx; sc ← Stacks.spendingCondition a; Stacks.address sc.

Definition extractPayer (tx : Stacks.Transaction) : string :=
  if Js.truthy (signer_of tx)
  then "ST" +:+ Js.slice0 38 (Js.or_else (signer_of tx) "")
  else if Js.truthy (address_of tx)
       then Js.or_else (address_of tx) ""
       else "unknown".

(** [BigInt(txPayload.amount || 0)] *)
Definition txAmount_of (tx : Stacks.Transaction) : Z :=
  match Stacks.amount (Stacks.payload tx) with
  | Some a => Z.of_N a
  | None => 0
  end.

(** Body of a [/verify] response. *)
Record VerifyBody : Type := {
  isValid : bool;
  payer : option string;
  errorReason : option string
}.

Definition invalid (reason : string) : VerifyBody :=
  {| isValid := false; payer := None; errorReason := Some reason |}.

Definition insufficient (txAmount requiredAmount : Z) : string :=
  "Insufficient: tx=" +:+ pretty txAmount +:+ " required=" +:+ pretty requiredAmount.

(** POST /verify *)
Definition verify (env : Env) (req : Request) (w : World)
  : World * Response VerifyBody :=
  match paymentPayload req, paymentRequirements req with
  | Some pp, Some pr =>
      if negb (Js.truthy (txHex_of pp)) then
        (w, {| status := 400; body := invalid "No transaction found in payload" |})
      else
        match deserializeTransaction env (Js.or_else (txHex_of pp) "") with
        | inr message =>
            (log ("[VERIFY] Error: " +:+ message) w,
             {| status := 400; body := invalid message |})
        | inl tx =>
            match Js.BigInt (Js.or_zero (amount pr)) with
            | inr message =>
                (log ("[VERIFY] Error: " +:+ message) w,
                 {| status := 400; body := invalid message |})
            | inl requiredAmount =>
                let txAmount := txAmount_of tx in
                if txAmount <? requiredAmount then
                  (w, json_ok (invalid (insufficient txAmount requiredAmount)))
                else
                  let payer := extractPayer tx in
                  (log ("[VERIFY] Valid: " +:+ pretty txAmount
                        +:+ " microSTX from " +:+ payer) w,
                   json_ok {| isValid := true; payer := Some payer;
                              errorReason := None |})
            end
        end
  | _, _ =>
      (w, {| status := 400;
             body := invalid "Missing paymentPayload or paymentRequirements" |})
  end.

(** The requirement and the transaction a request carries, when its proof
    decodes: what both handlers work on past their guards. *)
Definition decoded (env : Env) (req : Request)
  : option (PaymentRequirements * Stacks.Transaction) :=
  match paymentPayload req, paymentRequirements req with
  | Some pp, Some pr =>
      if Js.truthy (txHex_of pp) then
        match deserializeTransaction env (Js.or_else (txHex_of pp) "") with
        | inl tx => Some (pr, tx)
        | inr _ => None
        end
      else None
  | _, _ => None
  end.

Definition valid (payer : string) : VerifyBody :=
  {| isValid := true; payer := Some payer; errorReason := None |}.

(** Body of a [/settle] response; a field left out of the JSON is [None]. *)
Record SettleBody : Type := {
  success : bool;
  settle_payer : option string;
  settle_transaction : option string;
  settle_network : option string;
  settle_errorReason : option string
}.

Definition failed (reason : string) : SettleBody :=
  {| success := false; settle_payer := None; settle_transaction := None;
     settle_network := None; settle_errorReason := Some reason |}.

Definition is_success (st : option string) : bool :=
  match st with
  | Some s => String.eqb s "success"
  | None => false
  end.

Definition is_abort (st : option string) : bool :=
  match st with
  | Some s => Js.startsWith "abort" s
  | None => false
  end.

Definition tx_url (apiUrl : string) (txId : option string) : string :=
  apiUrl +:+ "/extended/v1/tx/" +:+ Js.show txId.

(** The loop of [waitForTx], entered at time [t]: the result and the time
    at which it is returned.  One turn is a GET followed by a sleep of
    5000 ms. *)
Equations? poll (env : Env) (url : string) (start timeoutMs t : Z) : bool * Z
  by wf (Z.to_nat (start + timeoutMs - t)) lt :=
  poll env url start timeoutMs t with Z_lt_dec (t - start) timeoutMs := {
    | right _ => (false, t)
    | left _ with is_success (axios_get env t url) := {
        | true => (true, t + Z.of_N (http_ms env))
        | false with is_abort (axios_get env t url) := {
            | true => (false, t + Z.of_N (http_ms env))
            | false =>
                poll env url start timeoutMs (t + Z.of_N (http_ms env) + 5000) } } }.
Proof. lia. Qed.

(** The loop is entered at [start]; it polls at [start + k * period]. *)
Definition period (env : Env) : Z := Z.of_N (http_ms env) + 5000.

(** The ledger reports the transaction behind [url] final from time [F]
    on, and neither final nor aborted before. *)
Definition finalizes_at (env : Env) (url : string) (F : Z) : Prop :=
  forall t,
    (t < F -> is_success (axios_get env t url) = false
              /\ is_abort (axios_get env t url) = false)
    /\ (F <= t -> is_success (axios_get env t url) = true).

(** The ledger never reports the transaction behind [url] final, and
    reports it aborted from time [A] on. *)
Definition aborts_at (env : Env) (url : string) (A : Z) : Prop :=
  forall t,
    is_success (axios_get env t url) = false
    /\ (A <= t -> is_abort (axios_get env t url) = true).

Definition waitForTx (env : Env) (apiUrl : string) (txId : option string)
    (timeoutMs : Z) (w : World) : World * bool :=
  let r := poll env (tx_url apiUrl txId) (now w) timeoutMs (now w) in
  (set_now (snd r) w, fst r).

(** [paymentRequirements.network || 'stacks:2147483648'] and the API
    selected by it. *)
Definition networkId_of (pr : PaymentRequirements) : string :=
  Js.or_else (network pr) "stacks:2147483648".

Definition isMainnet_of (pr : PaymentRequirements) : bool :=
  String.eqb (networkId_of pr) "stacks:1".

Definition apiUrl_of (pr : PaymentRequirements) : string :=
  if isMainnet_of pr then STACKS_API_MAINNET else STACKS_API_TESTNET.

(** [typeof result === 'string' ? result : result.txid] *)
Definition txId_of (result : Stacks.BroadcastResult) : option string :=
  match result with
  | Stacks.Txid i => Some i
  | Stacks.Object i _ _ => i
  | Stacks.Threw _ => None
  end.

(** [typeof result === 'object' ? result.error : null] *)
Definition error_of (result : Stacks.BroadcastResult) : option string :=
  match result with
  | Stacks.Object _ e _ => e
  | _ => None
  end.

(** [result.reason || error] *)
Definition reason_of (result : Stacks.BroadcastResult) : string :=
  match result with
  | Stacks.Object _ e r => Js.or_else r (Js.or_else e "")
  | _ => ""
  end.

(** What the node answers when [tx] is broadcast from world [w]. *)
Definition node_answer (env : Env) (w : World) (pr : PaymentRequirements)
    (tx : Stacks.Transaction) : Stacks.BroadcastResult :=
  broadcastTransaction env (sent w) (now w) tx (apiUrl_of pr).

(** The reason with which the node refuses a broadcast, if it does: the
    message of a thrown error, or [reason_of] an answer carrying [error]. *)
Definition rejection (result : Stacks.BroadcastResult) : option string :=
  match result with
  | Stacks.Threw message => Some message
  | _ => if Js.truthy (error_of result) then Some (reason_of result) else None
  end.

Definition settled (payer : string) (txId : option string) (networkId : string)
  : SettleBody :=
  {| success := true; settle_payer := Some payer; settle_transaction := txId;
     settle_network := Some networkId; settle_errorReason := None |}.

(** POST /settle *)
Definition settle (env : Env) (req : Request) (w : World)
  : World * Response SettleBody :=
  match paymentPayload req, paymentRequirements req with
  | Some pp, Some pr =>
      if negb (Js.truthy (txHex_of pp)) then
        (w, {| status := 400; body := failed "No transaction in payload" |})
      else
        let networkId := networkId_of pr in
        let isMainnet := isMainnet_of pr in
        let apiUrl := apiUrl_of pr in
        match deserializeTransaction env (Js.or_else (txHex_of pp) "") with
        | inr message =>
            (log ("[SETTLE] Error: " +:+ message) w,
             {| status := 500; body := failed message |})
        | inl tx =>
            let payer := extractPayer tx in
            let w1 := log ("[SETTLE] Broadcasting from " +:+ payer +:+ " on "
                           +:+ (if isMainnet then "mainnet" else "testnet") +:+ "...") w in
            let result := node_answer env w1 pr tx in
            let w2 := tick (Z.of_N (http_ms env))
                        {| now := now w1; sent := sent w1 ++ [(tx, apiUrl)];
                           console := console w1; database := database w1 |} in
            match result with
            | Stacks.Threw message =>
                (log ("[SETTLE] Error: " +:+ message) w2,
                 {| status := 500; body := failed message |})
            | _ =>
                let txId := txId_of result in
                let error := error_of result in
                if Js.truthy error then
                  let reason := reason_of result in
                  (log ("[SETTLE] Broadcast failed: " +:+ reason) w2,
                   {| status := 400; body := failed reason |})
                else
                  let w3 := log ("[SETTLE] Broadcast OK: " +:+ Js.show txId) w2 in
                  let '(w4, confirmed) := waitForTx env apiUrl txId 180000 w3 in
                  (log ("[SETTLE] " +:+ (if confirmed then "Confirmed" else "Pending (mempool)")
                        +:+ ": " +:+ Js.show txId) w4,
                   json_ok (settled payer txId networkId))
            end
        end
  | _, _ =>
      (w, {| status := 400; body := failed "Missing payload or requirements" |})
  end.

End Facilitator.

(* ===================================================================== *)
(** ** The resource server (src/server.ts) *)
(* ===================================================================== *)

Module Server.

Import Facilitator.

(** Process configuration read from the environment. *)
Record Config : Type := {
  PROVIDER_ADDRESS : string;
  NETWORK : string
}.

Definition feed_name (f : Feed) : string :=
  match f with
  | WhaleAlerts => "whale-alerts"
  | BtcSentiment => "btc-sentiment"
  | DefiScores => "defi-scores"
  end.

Definition feed_price (f : Feed) : string :=
  match f with
  | WhaleAlerts => "0.005 STX"
  | BtcSentiment => "0.003 STX"
  | DefiScores => "0.01 STX"
  end.

(** What [getPayment(req)] returns once the middleware has let the request
    through. *)
Record Payment : Type := {
  payment_payer : option string;
  payment_transaction : option string
}.

(** Body of a response that carries feed data; [tx_explorer] and
    [wallet_payment] are present on the wallet route only. *)
Record FeedBody : Type := {
  feed : string;
  provider : string;
  price : string;
  timestamp : Z;
  paid_by : string;
  tx : option string;
  tx_explorer : option string;
  wallet_payment : option bool;
  data : FeedData
}.

(** A handler suspended on [await generate...()]. *)
Record Suspended : Type := {
  started : Z;
  ready : Z;
  generated : FeedData
}.

(** Up to the [await]: read the clock and start the generator. *)
Definition feed_begin (env : Env) (f : Feed) (w : World) : Suspended :=
  let g := generate env f (now w) in
  {| started := now w; ready := now w + Z.of_N (snd g); generated := fst g |}.

(** The event loop resumes a suspended handler no earlier than [ready]. *)
Definition resume (s : Suspended) (w : World) : World :=
  set_now (Z.max (now w) (ready s)) w.

(** After the [await] of a paid route: record the query and answer. *)
Definition feed_finish (cfg : Config) (f : Feed) (payment : option Payment)
    (s : Suspended) (w : World) : World * Response FeedBody :=
  let responseMs := now w - started s in
  let payer := match payment with Some p => payment_payer p | None => None end in
  let txn := match payment with Some p => payment_transaction p | None => None end in
  let w1 := with_database
              (Db.recordQuery (now w) (feed_name f) payer txn responseMs
                              (Some (generated s))) w in
  (w1, json_ok {| feed := feed_name f;
                  provider := PROVIDER_ADDRESS cfg;
                  price := feed_price f;
                  timestamp := now w1;
                  paid_by := Js.or_else payer "unknown";
                  tx := Js.or_null txn;
                  tx_explorer := None;
                  wallet_payment := None;
                  data := generated s |}).

(** The handler behind [paymentMiddleware] on GET /feeds/<feed>, run with
    no other request in between. *)
Definition feed_handler (env : Env) (cfg : Config) (f : Feed)
    (payment : option Payment) (w : World) : World * Response FeedBody :=
  let s := feed_begin env f w in
  feed_finish cfg f payment s (resume s w).

(** POST /wallet/buy.  (Its [catch] answers 500 when a generator or the
    database throws; here neither does.) *)
Record WalletRequest : Type := {
  feedId : option string;
  txId : option string;
  senderAddress : option string
}.

Inductive WalletBody : Type :=
| WalletError (error : string)
| WalletData (b : FeedBody).

Definition validFeeds : list Feed := [WhaleAlerts; BtcSentiment; DefiScores].

Definition feed_of_id (i : string) : option Feed :=
  List.find (fun f => String.eqb (feed_name f) i) validFeeds.

Definition wallet_buy (env : Env) (cfg : Config) (req : WalletRequest)
    (w : World) : World * Response WalletBody :=
  if negb (Js.truthy (feedId req) && Js.truthy (txId req)
           && Js.truthy (senderAddress req)) then
    (w, {| status := 400;
           body := WalletError "Missing feedId, txId, or senderAddress" |})
  else
    match feed_of_id (Js.or_else (feedId req) "") with
    | None => (w, {| status := 400; body := WalletError "Invalid feed ID" |})
    | Some f =>
        let s := feed_begin env f w in
        let w1 := resume s w in
        let responseMs := now w1 - started s in
        let w2 := with_database
                    (Db.recordQuery (now w1) (feed_name f) (senderAddress req)
                                    (txId req) responseMs
                                    (Some (generated s))) w1 in
        (w2, json_ok (WalletData
               {| feed := feed_name f;
                  provider := PROVIDER_ADDRESS cfg;
                  price := feed_price f;
                  timestamp := now w2;
                  paid_by := Js.or_else (senderAddress req) "";
                  tx := txId req;
                  tx_explorer :=
                    Some ("https://explorer.hiro.so/txid/" +:+ Js.show (txId req)
                          +:+ "?chain=" +:+ NETWORK cfg);
                  wallet_payment := Some true;
                  data := generated s |}))
    end.

(** How a request to a paid route ends. *)
Inductive Outcome : Type :=
| Challenged (requirement : PaymentRequirements)
| Denied (reason : option string)
| Released (r : Response FeedBody).

(** The finality states of a settlement in the specification. *)
Inductive Finality : Type := Pending | Confirmed | Aborted.

(** Modelled from the spec: the Access Gate.  In the server it is
    [paymentMiddleware] of the package x402-stacks, which is not part of the
    sources; section 4.4 of the specification gives its state machine.  A
    request without proof is challenged with the requirement; a proof is
    verified, then settled; a failed verification, a refused settlement or
    an aborted one denies; a confirmed or pending settlement runs the route
    handler with its payer and transaction identifier.  The access gate sees the
    facilitator's answers only; how it reads a finality state off the answer
    of /settle is left open and is the parameter [finality]. *)
Definition paymentMiddleware (env : Env)
    (finality : Response SettleBody -> Finality)
    (requirement : PaymentRequirements)
    (proof : option PaymentPayload) (w : World) : World * (Outcome + Payment) :=
  match proof with
  | None => (w, inl (Challenged requirement))
  | Some p =>
      let req := {| paymentPayload := Some p;
                    paymentRequirements := Some requirement |} in
      let '(w1, v) := verify env req w in
      if isValid (body v) then
        let '(w2, s) := settle env req w1 in
        if success (body s) then
          match finality s with
          | Aborted => (w2, inl (Denied (Some "aborted")))
          | _ =>
              (w2, inr {| payment_payer := settle_payer (body s);
                          payment_transaction := settle_transaction (body s) |})
          end
        else (w2, inl (Denied (settle_errorReason (body s))))
      else (w1, inl (Denied (errorReason (body v))))
  end.

(** GET /feeds/<feed>: the access gate, then the handler. *)
Definition paid_route (env : Env) (cfg : Config)
    (finality : Response SettleBody -> Finality) (f : Feed)
    (requirement : PaymentRequirements) (proof : option PaymentPayload)
    (w : World) : World * Outcome :=
  match paymentMiddleware env finality requirement proof w with
  | (w1, inl o) => (w1, o)
  | (w1, inr payment) =>
      let '(w2, r) := feed_handler env cfg f (Some payment) w1 in
      (w2, Released r)
  end.

(** Two requests to one paid route that the access gate has let through with the
    same payment.  Each is a task of the event loop: not yet started,
    suspended on its [await], or answered.  A schedule says which task the
    loop runs next. *)
Inductive Task : Type :=
| Waiting
| Awaiting (s : Suspended)
| Answered (r : Response FeedBody).

Record System : Type := {
  world : World;
  first : Task;
  second : Task
}.

Definition advance (env : Env) (cfg : Config) (f : Feed)
    (payment : option Payment) (t : Task) (w : World) : World * Task :=
  match t with
  | Waiting => (w, Awaiting (feed_begin env f w))
  | Awaiting s =>
      let '(w1, r) := feed_finish cfg f payment s (resume s w) in
      (w1, Answered r)
  | Answered r => (w, Answered r)
  end.

Definition step (env : Env) (cfg : Config) (f : Feed)
    (payment : option Payment) (sys : System) (who : bool) : System :=
  if who then
    let '(w, t) := advance env cfg f payment (first sys) (world sys) in
    {| world := w; first := t; second := second sys |}
  else
    let '(w, t) := advance env cfg f payment (second sys) (world sys) in
    {| world := w; first := first sys; second := t |}.

Definition run (env : Env) (cfg : Config) (f : Feed)
    (payment : option Payment) (schedule : list bool) (sys : System) : System :=
  fold_left (step env cfg f payment) schedule sys.

Definition answered (t : Task) : option (Response FeedBody) :=
  match t with
  | Answered r => Some r
  | _ => None
  end.

(** How many records of transaction [txId] the ledger holds for feed [f]. *)
Definition recorded (f : Feed) (txId : string) (w : World) : nat :=
  length (Db.records_of (feed_name f) txId (database w)).

Definition answers (t : Task) : nat :=
  match t with
  | Answered _ => 1
  | _ => 0
  end.

(** A task, if answered, was answered 200 with transaction [txId]. *)
Definition released (txId : string) (t : Task) : Prop :=
  forall r, t = Answered r -> status r = 200 /\ tx (body r) = Some txId.

(** What every step of the event loop keeps: over the [n] records there
    were, one record per answered request. *)
Definition one_record_per_answer (f : Feed) (txId : string) (n : nat)
    (sys : System) : Prop :=
  recorded f txId (world sys) = (n + answers (first sys) + answers (second sys))%nat
  /\ released txId (first sys) /\ released txId (second sys).

(** How far a handler has come: not started, suspended at the [await],
    answered. *)
Definition stage (t : Task) : nat :=
  match t with
  | Waiting => 0
  | Awaiting _ => 1
  | Answered _ => 2
  end.

(** The data a task holds is what the generator returned when called at
    some time not before [t0]. *)
Definition produced (env : Env) (f : Feed) (t0 : Z) (t : Task) : Prop :=
  match t with
  | Waiting => True
  | Awaiting s => exists u, t0 <= u /\ generated s = fst (generate env f u)
  | Answered r => exists u, t0 <= u /\ data (body r) = fst (generate env f u)
  end.

End Server.

(* ===================================================================== *)
(** ** A concrete environment, for running the handlers *)
(* ===================================================================== *)

Module Demo.

Import Facilitator Server.

Definition R : string := "ST1PROVIDER".
Definition R2 : string := "ST2SOMEONEELSE".

Definition signed (amt : N) (to : string) : Stacks.Transaction :=
  {| Stacks.auth :=
       Some {| Stacks.spendingCondition :=
                 Some {| Stacks.signer := Some "6d78de7b0625dfbfc16c3a8a5735f6dc3dc3f2ce";
                         Stacks.address := None |} |};
     Stacks.payload := {| Stacks.amount := Some amt; Stacks.recipient := Some to |} |}.

(** A transfer whose authorization carries neither signer nor address. *)
Definition anonymous (amt : N) (to : string) : Stacks.Transaction :=
  {| Stacks.auth :=
       Some {| Stacks.spendingCondition :=
                 Some {| Stacks.signer := None; Stacks.address := None |} |};
     Stacks.payload := {| Stacks.amount := Some amt; Stacks.recipient := Some to |} |}.

Definition decode (hex : string) : Stacks.Transaction + string :=
  if String.eqb hex "5000R" then inl (signed 5000 R)
  else if String.eqb hex "3000R" then inl (signed 3000 R)
  else if String.eqb hex "5000R2" then inl (signed 5000 R2)
  else if String.eqb hex "5000anon" then inl (anonymous 5000 R)
  else inr "Invalid transaction".

Definition feed_data (f : Feed) (t : Z) : FeedData * N :=
  ({| json := "{}" |}, 120%N).

(** A node that answers every broadcast with [answer], and whose status
    endpoint answers a GET issued at time [t] with [status t]. *)
Definition env (answer : Stacks.BroadcastResult) (status : Z -> option string)
    (rtt : N) : Env :=
  {| deserializeTransaction := decode;
     broadcastTransaction := fun _ _ _ _ => answer;
     axios_get := fun t _ => status t;
     http_ms := rtt;
     generate := feed_data |}.

Definition accepted : Stacks.BroadcastResult := Stacks.Object (Some "0xabc") None None.
Definition rejected : Stacks.BroadcastResult :=
  Stacks.Object None (Some "transaction rejected") (Some "ConflictingNonceInMempool").

(** The transaction is final from time [T] on. *)
Definition final_at (T : Z) (t : Z) : option string :=
  Some (if T <=? t then "success" else "pending").

Definition aborting (t : Z) : option string := Some "abort_by_post_condition".
Definition never (t : Z) : option string := Some "pending".

Definition cfg : Config := {| PROVIDER_ADDRESS := R; NETWORK := "testnet" |}.

Definition w0 : World :=
  {| now := 0; sent := []; console := []; database := Db.init |}.

Definition proof (hex : string) : PaymentPayload :=
  {| payload := Some {| inner_transaction := Some hex |}; transaction := None |}.

Definition requirement (amt : Js.value) : PaymentRequirements :=
  {| amount := amt; network := Some "stacks:2147483648"; payTo := Some R |}.

Definition request (hex : string) (amt : Js.value) : Request :=
  {| paymentPayload := Some (proof hex);
     paymentRequirements := Some (requirement amt) |}.

(** A generator whose data tell the feed and the time of the call. *)
Definition dated (f : Feed) (t : Z) : FeedData * N :=
  ({| json := feed_name f +:+ "@" +:+ pretty t |}, 120%N).

(** [env] with the generators replaced by [dated]. *)
Definition env_dated (answer : Stacks.BroadcastResult)
    (status : Z -> option string) (rtt : N) : Env :=
  {| deserializeTransaction := decode;
     broadcastTransaction := fun _ _ _ _ => answer;
     axios_get := fun t _ => status t;
     http_ms := rtt;
     generate := dated |}.


End Demo.


(* ===================================================================== *)
(** ** Reading the query ledger (src/db.ts) *)
(* ===================================================================== *)

Module Queries.

(** [SELECT SUM(total_queries) as total FROM feed_stats], then
    [row.total || 0]. *)
Definition getTotalQueries (db : Db.t) : Z :=
  map_fold (fun _ s total => Db.total_queries s + total) 0 (Db.feed_stats db).

(** [SELECT * FROM queries WHERE id = ?]: the row, or [undefined]. *)
Definition getQueryById (i : Z) (db : Db.t) : option Db.QueryRow :=
  List.find (fun r => Db.id r =? i) (Db.queries db).

(** [SELECT COUNT(DISTINCT payer) ... WHERE payer IS NOT NULL] *)
Definition agents (db : Db.t) : gset string :=
  list_to_set (omap Db.payer (Db.queries db)).

Definition getUniqueAgents (db : Db.t) : Z := Z.of_nat (size (agents db)).

(** [ORDER BY created_at DESC, id DESC]: [r1] comes no later than [r2]. *)
Definition newer (r1 r2 : Db.QueryRow) : Prop :=
  Db.created_at r2 < Db.created_at r1
  \/ (Db.created_at r1 = Db.created_at r2 /\ Db.id r2 <= Db.id r1).

#[global] Instance newer_dec : RelDecision newer.
Proof. intros r1 r2. unfold newer. apply _. Defined.

(** [LIMIT n] of SQLite: a negative [n] puts no bound on the rows. *)
Definition limit {A : Type} (n : Z) (rows : list A) : list A :=
  if n <? 0 then rows else take (Z.to_nat n) rows.

(** [SELECT * FROM queries ORDER BY created_at DESC, id DESC LIMIT ?] *)
Definition getRecentQueries (n : Z) (db : Db.t) : list Db.QueryRow :=
  limit n (merge_sort newer (Db.queries db)).

End Queries.

(* ===================================================================== *)
(** ** The free endpoints of the resource server (src/server.ts) *)
(* ===================================================================== *)

Module Dashboard.

Import Server.

Definition AGENT_PREFIXES : list string :=
  ["Shadow"; "Cyber"; "Quantum"; "Neural"; "Alpha"; "Omega"; "Phantom"; "Nova";
   "Stellar"; "Hyper"; "Crypto"; "Digital"; "Apex"; "Nexus"; "Vector"; "Sigma";
   "Delta"; "Turbo"; "Nano"; "Onyx"].

Definition AGENT_SUFFIXES : list string :=
  ["Bot"; "Agent"; "Scout"; "Miner"; "Seeker"; "Hunter"; "Walker"; "Runner";
   "Pilot"; "Guard"; "Hawk"; "Wolf"; "Fox"; "Lynx"; "Viper"; "Raven"; "Spark";
   "Node"; "Core"; "Byte"].

(** ToInt32: the value of [x | 0] and of [x << n] as a signed 32-bit
    integer. *)
Definition to_int32 (z : Z) : Z := (z + 2 ^ 31) mod 2 ^ 32 - 2 ^ 31.

(** The UTF-16 code units of UTF-8 bytes: one unit for a character of one,
    two or three bytes, a surrogate pair for one of four bytes.  A byte
    that begins no well-formed character is kept as it is. *)
Fixpoint utf16 (bytes : list Z) : list Z :=
  match bytes with
  | [] => []
  | b0 :: rest =>
      if b0 <? 192 then b0 :: utf16 rest
      else
        match rest with
        | [] => [b0]
        | b1 :: r1 =>
            if b0 <? 224 then ((b0 - 192) * 64 + (b1 - 128)) :: utf16 r1
            else
              match r1 with
              | [] => b0 :: utf16 rest
              | b2 :: r2 =>
                  if b0 <? 240
                  then ((b0 - 224) * 4096 + (b1 - 128) * 64 + (b2 - 128))
                       :: utf16 r2
                  else
                    match r2 with
                    | [] => b0 :: utf16 rest
                    | b3 :: r3 =>
                        let cp := (b0 - 240) * 262144 + (b1 - 128) * 4096
                                  + (b2 - 128) * 64 + (b3 - 128) in
                        (55296 + (cp - 65536) / 1024)
                        :: (56320 + (cp - 65536) mod 1024) :: utf16 r3
                    end
              end
        end
  end.

(** [s.charCodeAt(i)] for every [i] below [s.length]. *)
Definition charCodes (s : string) : list Z :=
  utf16 (map (fun c => Z.of_nat (nat_of_ascii c)) (list_ascii_of_string s)).

(** [hash = ((hash << 5) - hash + address.charCodeAt(i)) | 0] *)
Definition hash_step (hash c : Z) : Z :=
  to_int32 (to_int32 (Z.shiftl hash 5) - hash + c).

Definition hash_of (address : string) : Z :=
  fold_left hash_step (charCodes address) 0.

(** [list[i]] inside a template literal: an index outside the array prints
    as [undefined]. *)
Definition element (l : list string) (i : Z) : string :=
  if i <? 0 then "undefined" else default "undefined" (l !! Z.to_nat i).

Definition getAgentName (address : string) : string :=
  if String.eqb address "" then "Unknown"
  else
    let hash := hash_of address in
    let prefixIdx := Z.rem (Z.abs hash) (Z.of_nat (length AGENT_PREFIXES)) in
    let suffixIdx :=
      Z.rem (Z.abs (Z.shiftr hash 8)) (Z.of_nat (length AGENT_SUFFIXES)) in
    let num := Z.rem (Z.abs (Z.shiftr hash 16)) 100 in
    element AGENT_PREFIXES prefixIdx +:+ element AGENT_SUFFIXES suffixIdx
    +:+ "-" +:+ pretty num.

(** [formatTimeAgo(timestampMs)] evaluated when [Date.now()] is [now]. *)
Definition formatTimeAgo (now timestampMs : Z) : string :=
  let diff := now - timestampMs in
  if diff <? 60000 then pretty (diff / 1000) +:+ "s ago"
  else if diff <? 3600000 then pretty (diff / 60000) +:+ "m ago"
  else if diff <? 86400000 then pretty (diff / 3600000) +:+ "h ago"
  else pretty (diff / 86400000) +:+ "d ago".


#[local] Set Warnings "-inexact-float".

(** [feedPrices[feed_id] || 0] *)
Definition price_of (feed_id : string) : float :=
  if String.eqb feed_id "whale-alerts" then 0.005%float
  else if String.eqb feed_id "btc-sentiment" then 0.003%float
  else if String.eqb feed_id "defi-scores" then 0.01%float
  else 0%float.

(** [tx_hash?.startsWith('demo_') || false] *)
Definition isDemo (tx_hash : option string) : bool :=
  match tx_hash with
  | Some h => Js.startsWith "demo_" h
  | None => false
  end.

(** [s.slice(-n)] *)
Definition slice_last (n : nat) (s : string) : string :=
  String.substring (String.length s - n) n s.

(** One entry of the [activity] array of GET /activity.  [is_onchain] is
    [tx_hash && !isDemo]: a missing [tx_hash] is passed through as it is
    ([None] here). *)
Record ActivityItem : Type := {
  item_id : Z;
  item_feed : string;
  agent : option string;
  agent_name : string;
  agent_short : string;
  item_tx_hash : option string;
  item_tx_explorer : option string;
  is_demo : bool;
  is_onchain : option bool;
  price_stx : float;
  item_response_ms : Z;
  item_timestamp : Z;
  time_ago : string
}.

Definition explorer (cfg : Config) (tx_hash : option string) : string :=
  "https://explorer.hiro.so/txid/" +:+ Js.show tx_hash +:+ "?chain=" +:+ NETWORK cfg.

Definition activity_item (cfg : Config) (now : Z) (q : Db.QueryRow) : ActivityItem :=
  let demo := isDemo (Db.tx_hash q) in
  let isReal := if Js.truthy (Db.tx_hash q) then Some (negb demo) else None in
  {| item_id := Db.id q;
     item_feed := Db.feed_id q;
     agent := Db.payer q;
     agent_name := getAgentName (Js.or_else (Db.payer q) "");
     agent_short :=
       if Js.truthy (Db.payer q)
       then Js.slice0 8 (Js.or_else (Db.payer q) "") +:+ "..."
            +:+ slice_last 6 (Js.or_else (Db.payer q) "")
       else "unknown";
     item_tx_hash := Db.tx_hash q;
     item_tx_explorer :=
       if default false isReal then Some (explorer cfg (Db.tx_hash q)) else None;
     is_demo := demo;
     is_onchain := isReal;
     price_stx := price_of (Db.feed_id q);
     item_response_ms := Db.response_ms q;
     item_timestamp := Db.created_at q * 1000;
     time_ago := formatTimeAgo now (Db.created_at q * 1000) |}.


(** Body of a response of GET /activity/:id/data. *)
Record QueryData : Type := {
  data_id : Z;
  data_feed : string;
  data_agent : option string;
  data_tx_hash : option string;
  data_is_demo : bool;
  data_is_onchain : bool;
  data_price_stx : float;
  data_response_ms : Z;
  data_timestamp : Z;
  stored : option FeedData
}.

Inductive DataBody : Type :=
| DataError (error : string)
| Data (d : QueryData).

(** [JSON.parse] of a stored text gives back the object it was made of. *)
Definition JSON_parse (text : string) : FeedData := {| json := text |}.

(** GET /activity/:id/data, from what [parseInt(req.params.id, 10)] gives. *)
Definition activity_data (parsed : option Z) (w : World) : Response DataBody :=
  match parsed with
  | None => {| status := 400; body := DataError "Invalid query ID" |}
  | Some i =>
      match Queries.getQueryById i (database w) with
      | None => {| status := 404; body := DataError "Query not found" |}
      | Some query =>
          let demo := isDemo (Db.tx_hash query) in
          json_ok (Data
            {| data_id := Db.id query;
               data_feed := Db.feed_id query;
               data_agent := Db.payer query;
               data_tx_hash := Db.tx_hash query;
               data_is_demo := demo;
               data_is_onchain := Js.truthy (Db.tx_hash query) && negb demo;
               data_price_stx := price_of (Db.feed_id query);
               data_response_ms := Db.response_ms query;
               data_timestamp := Db.created_at query * 1000;
               stored := if Js.truthy (Db.response_data query)
                         then option_map JSON_parse (Db.response_data query)
                         else None |})
      end
  end.

(** A request the server handles, and a run of the server: the requests
    handled one after the other. *)
Inductive Call : Type :=
| GetFeed (f : Feed) (payment : option Payment)
| PostWalletBuy (req : WalletRequest)
| PostVerify (req : Facilitator.Request)
| PostSettle (req : Facilitator.Request).

Definition handle (env : Env) (cfg : Config) (w : World) (c : Call) : World :=
  match c with
  | GetFeed f payment => fst (feed_handler env cfg f payment w)
  | PostWalletBuy req => fst (wallet_buy env cfg req w)
  | PostVerify req => fst (Facilitator.verify env req w)
  | PostSettle req => fst (Facilitator.settle env req w)
  end.

Definition serve (env : Env) (cfg : Config) (calls : list Call) (w : World)
  : World :=
  fold_left (handle env cfg) calls w.

End Dashboard.

(* ===================================================================== *)
(** ** The states a run can reach *)
(* ===================================================================== *)

(** The databases [recordQuery] builds from a fresh file. *)
Inductive reachable : Db.t -> Prop :=
| reachable_init : reachable Db.init
| reachable_record (t : Z) (feedId : string) (payer txHash : option string)
    (ms : Z) (data : option FeedData) (db : Db.t) :
    reachable db ->
    reachable (Db.recordQuery t feedId payer txHash ms data db).

(** What the server keeps of its ledger along a run: the database is one
    [recordQuery] builds, every feed has its row of statistics, the counters
    add up to the number of rows, and the rows were inserted in the order
    of the clock. *)
Definition ledger_kept (w : World) : Prop :=
  reachable (database w)
  /\ (forall f, is_Some (Db.feed_stats (database w) !! Server.feed_name f))
  /\ Queries.getTotalQueries (database w)
     = Z.of_nat (length (Db.queries (database w)))
  /\ Sorted Queries.newer (reverse (Db.queries (database w)))
  /\ Forall (fun r => Db.created_at r <= Db.unixepoch (now w))
            (Db.queries (database w)).

(* ===================================================================== *)
(** ** Properties *)
(* ===================================================================== *)

Import Facilitator Server.

(** *** Values *)

Example BigInt_decimal : Js.BigInt (Js.Str " 5000 ") = inl 5000.
Proof. reflexivity. Qed.

Example BigInt_hex : Js.BigInt (Js.Str "0x1F") = inl 31.
Proof. reflexivity. Qed.

Example BigInt_signed_hex :
  Js.BigInt (Js.Str "-0x12") = inr "Cannot convert -0x12 to a BigInt".
Proof. reflexivity. Qed.

Example BigInt_default : Js.BigInt (Js.or_zero Js.Undefined) = inl 0.
Proof. reflexivity. Qed.

(** A no-break space (U+00A0) before and an ideographic space (U+3000)
    after the digits are dropped like any other white space. *)
Example BigInt_unicode_space :
  Js.BigInt (Js.Str (String "194" (String "160" "5000"
                       +:+ String "227" (String "128" (String "128" ""))))%char)
  = inl 5000.
Proof. reflexivity. Qed.

(** The average of a feed takes a negative duration as it is. *)
Example real_negative : Db.real (- 5) = (- 5)%float.
Proof. reflexivity. Qed.

Example extractPayer_signer :
  extractPayer (Demo.signed 5000 Demo.R) = "ST6d78de7b0625dfbfc16c3a8a5735f6dc3dc3f2".
Proof. reflexivity. Qed.

(** *** The polling loop *)

Section Polling.

Variable env : Env.
Variable url : string.
Variables start timeoutMs : Z.

Lemma poll_expired (t : Z) :
  timeoutMs <= t - start -> poll env url start timeoutMs t = (false, t).
Proof.
  intros H. simp poll. destruct (Z_lt_dec (t - start) timeoutMs); [lia|].
  reflexivity.
Qed.

Lemma poll_success (t : Z) :
  t - start < timeoutMs ->
  is_success (axios_get env t url) = true ->
  poll env url start timeoutMs t = (true, t + Z.of_N (http_ms env)).
Proof.
  intros H Hs. simp poll. destruct (Z_lt_dec (t - start) timeoutMs); [|lia].
  simpl. rewrite Hs. reflexivity.
Qed.

Lemma poll_abort (t : Z) :
  t - start < timeoutMs ->
  is_success (axios_get env t url) = false ->
  is_abort (axios_get env t url) = true ->
  poll env url start timeoutMs t = (false, t + Z.of_N (http_ms env)).
Proof.
  intros H Hs Ha. simp poll. destruct (Z_lt_dec (t - start) timeoutMs); [|lia].
  simpl. rewrite Hs. simpl. rewrite Ha. reflexivity.
Qed.

Lemma poll_sleep (t : Z) :
  t - start < timeoutMs ->
  is_success (axios_get env t url) = false ->
  is_abort (axios_get env t url) = false ->
  poll env url start timeoutMs t
  = poll env url start timeoutMs (t + Z.of_N (http_ms env) + 5000).
Proof.
  intros H Hs Ha. rewrite poll_equation_1 at 1.
  destruct (Z_lt_dec (t - start) timeoutMs); [|lia].
  simpl. rewrite Hs. simpl. rewrite Ha. reflexivity.
Qed.

(** Without a success report the answer is [false]. *)
Lemma poll_never_success (t : Z) :
  (forall u, t <= u -> u - start < timeoutMs ->
             is_success (axios_get env u url) = false) ->
  fst (poll env url start timeoutMs t) = false.
Proof.
  remember (Z.to_nat (start + timeoutMs - t)) as n eqn:Hn.
  revert t Hn. induction n as [n IH] using lt_wf_ind. intros t Hn Hno.
  destruct (Z_lt_dec (t - start) timeoutMs) as [Hlt|Hge].
  - pose proof (Hno t ltac:(lia) Hlt) as Hs.
    destruct (is_abort (axios_get env t url)) eqn:Ha.
    + rewrite poll_abort by assumption. reflexivity.
    + rewrite poll_sleep by assumption.
      apply (IH (Z.to_nat (start + timeoutMs - (t + Z.of_N (http_ms env) + 5000)))).
      * lia.
      * reflexivity.
      * intros u Hu. apply Hno. lia.
  - rewrite poll_expired by lia. reflexivity.
Qed.

(** Against a ledger that turns final at [F], a poll at or after [F] that
    is still within the timeout makes the answer [true]. *)
Lemma poll_final (F : Z) (k : nat) (t : Z) :
  finalizes_at env url F ->
  F <= t + Z.of_nat k * period env ->
  t + Z.of_nat k * period env - start < timeoutMs ->
  fst (poll env url start timeoutMs t) = true.
Proof.
  intros HF. unfold period. revert t.
  induction k as [|k IH]; intros t Hge Hlt.
  - rewrite poll_success; [reflexivity|lia|]. apply HF. lia.
  - destruct (Z_le_gt_dec F t) as [Hle|Hgt].
    + rewrite poll_success; [reflexivity|lia|]. apply HF. lia.
    + destruct (HF t) as [Hbefore _].
      destruct (Hbefore ltac:(lia)) as [Hs Ha].
      rewrite poll_sleep by (try assumption; lia).
      apply IH; lia.
Qed.

End Polling.

(** *** Verification *)

Ltac decoded_inv H :=
  unfold decoded in H;
  repeat match type of H with
         | match ?x with _ => _ end = Some _ => destruct x eqn:?; try discriminate H
         | (if ?x then _ else _) = Some _ => destruct x eqn:?; try discriminate H
         end;
  injection H as -> ->.

(** Past its guards, [/verify] is the comparison of the two amounts. *)
Lemma verify_decoded (env : Env) (req : Request) (w : World)
    (pr : PaymentRequirements) (tx : Stacks.Transaction) (required : Z) :
  decoded env req = Some (pr, tx) ->
  Js.BigInt (Js.or_zero (amount pr)) = inl required ->
  snd (verify env req w)
  = json_ok (if txAmount_of tx <? required
             then invalid (insufficient (txAmount_of tx) required)
             else valid (extractPayer tx)).
Proof.
  intros Hd Hr. decoded_inv Hd. unfold verify.
  repeat match goal with H : _ = _ |- _ => rewrite H end. simpl.
  destruct (txAmount_of _ <? required); reflexivity.
Qed.

Lemma txAmount_nonneg (tx : Stacks.Transaction) : 0 <= txAmount_of tx.
Proof. unfold txAmount_of. destruct (Stacks.amount _); lia. Qed.

Lemma extractPayer_unknown (tx : Stacks.Transaction) :
  Js.truthy (signer_of tx) = false ->
  Js.truthy (address_of tx) = false ->
  extractPayer tx = "unknown".
Proof. intros Hs Ha. unfold extractPayer. rewrite Hs, Ha. reflexivity. Qed.

(** C4: a proof that commits less than the required amount is answered
    [isValid: false], without a payer and with the reason
    [Insufficient: tx=<committed> required=<required>], whatever its
    recipient and network; one that commits the required amount or more
    passes the amount check and is answered [isValid: true]. *)
Theorem verify_amount_check (env : Env) (req : Request) (w : World)
    (pr : PaymentRequirements) (tx : Stacks.Transaction) (required : Z) :
  decoded env req = Some (pr, tx) ->
  Js.BigInt (Js.or_zero (amount pr)) = inl required ->
  let r := snd (verify env req w) in
  (txAmount_of tx < required ->
   status r = 200
   /\ isValid (body r) = false
   /\ payer (body r) = None
   /\ errorReason (body r)
      = Some ("Insufficient: tx=" +:+ pretty (txAmount_of tx)
              +:+ " required=" +:+ pretty required))
  /\ (required <= txAmount_of tx ->
      status r = 200
      /\ isValid (body r) = true
      /\ errorReason (body r) = None).
Proof.
  intros Hd Hr r. subst r.
  rewrite (verify_decoded _ _ _ _ _ _ Hd Hr). split; intros H.
  - destruct (Z.ltb_spec (txAmount_of tx) required) as [_|Hge]; [|lia].
    unfold json_ok, invalid, insufficient.
    cbn [status body isValid payer errorReason].
    repeat split; reflexivity.
  - destruct (Z.ltb_spec (txAmount_of tx) required) as [Hlt|_]; [lia|].
    unfold json_ok, valid. cbn [status body isValid payer errorReason].
    repeat split; reflexivity.
Qed.

Lemma verify_amount_check_witness :
  let e := Demo.env Demo.accepted Demo.never 0 in
  let low := snd (verify e (Demo.request "3000R" (Js.Str "5000")) Demo.w0) in
  let enough := snd (verify e (Demo.request "5000R" (Js.Str "5000")) Demo.w0) in
  (status low = 200
   /\ isValid (body low) = false
   /\ payer (body low) = None
   /\ errorReason (body low) = Some "Insufficient: tx=3000 required=5000")
  /\ (status enough = 200
      /\ isValid (body enough) = true
      /\ errorReason (body enough) = None).
Proof.
  split.
  - apply (verify_amount_check (Demo.env Demo.accepted Demo.never 0)
             (Demo.request "3000R" (Js.Str "5000")) Demo.w0
             (Demo.requirement (Js.Str "5000")) (Demo.signed 3000 Demo.R) 5000);
      [reflexivity|reflexivity|cbn; lia].
  - apply (verify_amount_check (Demo.env Demo.accepted Demo.never 0)
             (Demo.request "5000R" (Js.Str "5000")) Demo.w0
             (Demo.requirement (Js.Str "5000")) (Demo.signed 5000 Demo.R) 5000);
      [reflexivity|reflexivity|cbn; lia].
Defined.

(** C5, as stated, fails: the proof commits the required 5000 to [R2] while
    the requirement names [R], and [/verify] answers valid. *)
Lemma verify_accepts_other_recipient :
  let e := Demo.env Demo.accepted Demo.never 0 in
  let req := Demo.request "5000R2" (Js.Str "5000") in
  decoded e req = Some (Demo.requirement (Js.Str "5000"), Demo.signed 5000 Demo.R2)
  /\ Stacks.recipient (Stacks.payload (Demo.signed 5000 Demo.R2)) = Some Demo.R2
  /\ payTo (Demo.requirement (Js.Str "5000")) = Some Demo.R
  /\ Demo.R2 <> Demo.R
  /\ snd (verify e req Demo.w0)
     = json_ok (valid "ST6d78de7b0625dfbfc16c3a8a5735f6dc3dc3f2").
Proof. repeat split; try reflexivity. discriminate. Qed.

(** C5, amended: [/verify] does not look at the destination.  A proof whose
    recipient differs from the one required gets the verdict of the amount
    check alone: invalid with [Insufficient: ...] below the required amount,
    valid with the derived payer otherwise. *)
Theorem verify_ignores_recipient (env : Env) (req : Request) (w : World)
    (pr : PaymentRequirements) (tx : Stacks.Transaction) (required : Z) :
  decoded env req = Some (pr, tx) ->
  Js.BigInt (Js.or_zero (amount pr)) = inl required ->
  Stacks.recipient (Stacks.payload tx) <> payTo pr ->
  (txAmount_of tx < required ->
   body (snd (verify env req w)) = invalid (insufficient (txAmount_of tx) required))
  /\ (required <= txAmount_of tx ->
      body (snd (verify env req w)) = valid (extractPayer tx)).
Proof.
  intros Hd Hr _. rewrite (verify_decoded _ _ _ _ _ _ Hd Hr). split; intros H.
  - destruct (Z.ltb_spec (txAmount_of tx) required); [reflexivity|lia].
  - destruct (Z.ltb_spec (txAmount_of tx) required); [lia|reflexivity].
Qed.

Lemma verify_ignores_recipient_witness :
  let e := Demo.env Demo.accepted Demo.never 0 in
  body (snd (verify e (Demo.request "5000R2" (Js.Str "5000")) Demo.w0))
  = valid (extractPayer (Demo.signed 5000 Demo.R2)).
Proof.
  apply (verify_ignores_recipient (Demo.env Demo.accepted Demo.never 0)
           (Demo.request "5000R2" (Js.Str "5000")) Demo.w0
           (Demo.requirement (Js.Str "5000")) (Demo.signed 5000 Demo.R2) 5000).
  - reflexivity.
  - reflexivity.
  - cbn. discriminate.
  - cbn. lia.
Defined.

(** C9: when [paymentRequirements] has no [amount], the required amount is
    0 and every proof that decodes is valid. *)
Theorem verify_without_amount (env : Env) (req : Request) (w : World)
    (pr : PaymentRequirements) (tx : Stacks.Transaction) :
  decoded env req = Some (pr, tx) ->
  amount pr = Js.Undefined ->
  Js.BigInt (Js.or_zero (amount pr)) = inl 0
  /\ snd (verify env req w) = json_ok (valid (extractPayer tx)).
Proof.
  intros Hd Ha.
  assert (Hr : Js.BigInt (Js.or_zero (amount pr)) = inl 0) by (rewrite Ha; reflexivity).
  split; [exact Hr|].
  rewrite (verify_decoded _ _ _ _ _ _ Hd Hr).
  pose proof (txAmount_nonneg tx).
  destruct (Z.ltb_spec (txAmount_of tx) 0); [lia|reflexivity].
Qed.

Lemma verify_without_amount_witness :
  let e := Demo.env Demo.accepted Demo.never 0 in
  let req := {| paymentPayload := Some (Demo.proof "3000R");
                paymentRequirements := Some (Demo.requirement Js.Undefined) |} in
  Js.BigInt (Js.or_zero (amount (Demo.requirement Js.Undefined))) = inl 0
  /\ snd (verify e req Demo.w0)
     = json_ok (valid (extractPayer (Demo.signed 3000 Demo.R))).
Proof.
  apply (verify_without_amount (Demo.env Demo.accepted Demo.never 0)
           {| paymentPayload := Some (Demo.proof "3000R");
              paymentRequirements := Some (Demo.requirement Js.Undefined) |}
           Demo.w0 (Demo.requirement Js.Undefined) (Demo.signed 3000 Demo.R));
    reflexivity.
Defined.

(** C10: for a proof whose authorization yields neither signer nor address,
    [extractPayer] returns ["unknown"], and [/verify] answers valid with
    that payer once the amount suffices. *)
Theorem verify_payer_unknown (env : Env) (req : Request) (w : World)
    (pr : PaymentRequirements) (tx : Stacks.Transaction) (required : Z) :
  decoded env req = Some (pr, tx) ->
  Js.BigInt (Js.or_zero (amount pr)) = inl required ->
  required <= txAmount_of tx ->
  Js.truthy (signer_of tx) = false ->
  Js.truthy (address_of tx) = false ->
  extractPayer tx = "unknown"
  /\ snd (verify env req w) = json_ok (valid "unknown").
Proof.
  intros Hd Hr Hge Hs Ha.
  pose proof (extractPayer_unknown tx Hs Ha) as Hu. split; [exact Hu|].
  rewrite (verify_decoded _ _ _ _ _ _ Hd Hr), Hu.
  destruct (Z.ltb_spec (txAmount_of tx) required); [lia|reflexivity].
Qed.

Lemma verify_payer_unknown_witness :
  let e := Demo.env Demo.accepted Demo.never 0 in
  extractPayer (Demo.anonymous 5000 Demo.R) = "unknown"
  /\ snd (verify e (Demo.request "5000anon" (Js.Str "5000")) Demo.w0)
     = json_ok (valid "unknown").
Proof.
  apply (verify_payer_unknown (Demo.env Demo.accepted Demo.never 0)
           (Demo.request "5000anon" (Js.Str "5000")) Demo.w0
           (Demo.requirement (Js.Str "5000")) (Demo.anonymous 5000 Demo.R) 5000);
    reflexivity.
Defined.

(** *** Timeouts of the finality polling *)

Lemma final_at_finalizes (rtt : N) (answer : Stacks.BroadcastResult)
    (url : string) (F : Z) :
  finalizes_at (Demo.env answer (Demo.final_at F) rtt) url F.
Proof.
  intros t. unfold Demo.env, Demo.final_at. simpl. split.
  - intros Hlt. destruct (Z.leb_spec F t); [lia|]. split; reflexivity.
  - intros Hge. destruct (Z.leb_spec F t); [|lia]. reflexivity.
Defined.

(** C7, as stated, fails: a ledger final at 1000 ms, between the timeouts
    500 ms and 2000 ms, is polled at 0 ms and next at 5000 ms only, so the
    call with timeout 2000 ms answers [false] (pending). *)
Lemma waitForTx_final_between_polls :
  let e := Demo.env Demo.accepted (Demo.final_at 1000) 0 in
  finalizes_at e (tx_url STACKS_API_TESTNET (Some "0xabc")) (now Demo.w0 + 1000)
  /\ 500 < 1000 < 2000
  /\ snd (waitForTx e STACKS_API_TESTNET (Some "0xabc") 500 Demo.w0) = false
  /\ snd (waitForTx e STACKS_API_TESTNET (Some "0xabc") 2000 Demo.w0) = false.
Proof.
  split; [apply final_at_finalizes|].
  split; [lia|]. split; vm_compute; reflexivity.
Qed.

(** A polling instant lies in every window of one period. *)
Lemma polling_instant (env : Env) (T : Z) :
  0 <= T -> exists k : nat, T <= Z.of_nat k * period env < T + period env.
Proof.
  intros HT.
  assert (HP : 0 < period env) by (unfold period; lia).
  exists (Z.to_nat ((T + period env - 1) / period env)).
  assert (Hq : 0 <= (T + period env - 1) / period env)
    by (apply Z.div_pos; lia).
  rewrite Z2Nat.id by exact Hq.
  pose proof (Z.mul_div_le (T + period env - 1) (period env) HP).
  pose proof (Z.mul_succ_div_gt (T + period env - 1) (period env) HP).
  lia.
Qed.

(** Before the ledger turns final the polling answers [false]; once a
    polling instant at or after that time lies within the timeout, it
    answers [true]. *)
Lemma poll_pending (env : Env) (url : string) (t T timeoutMs : Z) :
  finalizes_at env url (t + T) ->
  timeoutMs < T ->
  fst (poll env url t timeoutMs t) = false.
Proof.
  intros HF HT. apply poll_never_success. intros u Hu Hlt. apply HF. lia.
Qed.

Lemma poll_confirmed (env : Env) (url : string) (t T timeoutMs : Z) :
  finalizes_at env url (t + T) ->
  0 <= T ->
  T + period env <= timeoutMs ->
  fst (poll env url t timeoutMs t) = true.
Proof.
  intros HF H0 HT. destruct (polling_instant env T H0) as [k Hk].
  apply (poll_final env url t timeoutMs (t + T) k); [exact HF|lia|lia].
Qed.

(** *** Settlement *)

Ltac settle_open Hd :=
  decoded_inv Hd; unfold settle;
  repeat match goal with H : _ = _ |- _ => rewrite H end;
  cbn [negb]; cbv zeta.

(** [/settle] hands every decodable transaction to the node, exactly once. *)
Lemma settle_sent (env : Env) (req : Request) (w : World)
    (pr : PaymentRequirements) (tx : Stacks.Transaction) :
  decoded env req = Some (pr, tx) ->
  sent (fst (settle env req w)) = sent w ++ [(tx, apiUrl_of pr)].
Proof.
  intros Hd. settle_open Hd.
  destruct (node_answer env _ pr tx) as [i|i e r|m];
    cbn [txId_of error_of Js.truthy];
    [ | destruct (Js.truthy e) | ]; unfold waitForTx; reflexivity.
Qed.

(** [/settle] neither reads nor writes the database. *)
Lemma settle_database (env : Env) (req : Request) (w : World) (f : Db.t -> Db.t) :
  settle env req (with_database f w)
  = (with_database f (fst (settle env req w)), snd (settle env req w)).
Proof.
  unfold settle.
  destruct (paymentPayload req) as [pp|]; [|reflexivity].
  destruct (paymentRequirements req) as [pr|]; [|reflexivity].
  destruct (negb (Js.truthy (txHex_of pp))); [reflexivity|].
  destruct (deserializeTransaction env _) as [tx|m]; [|reflexivity].
  cbv zeta. unfold node_answer. cbn [sent now log with_database].
  destruct (broadcastTransaction env _ _ tx _) as [i|i e r|m];
    cbn [txId_of error_of Js.truthy];
    [ | destruct (Js.truthy e) | ]; unfold waitForTx; reflexivity.
Qed.

Lemma node_answer_log (env : Env) (line : string) (w : World)
    (pr : PaymentRequirements) (tx : Stacks.Transaction) :
  node_answer env (log line w) pr tx = node_answer env w pr tx.
Proof. reflexivity. Qed.

(** A refused broadcast ends [/settle] with [success: false] and the reason. *)
Lemma settle_rejected (env : Env) (req : Request) (w : World)
    (pr : PaymentRequirements) (tx : Stacks.Transaction) (reason : string) :
  decoded env req = Some (pr, tx) ->
  rejection (node_answer env w pr tx) = Some reason ->
  body (snd (settle env req w)) = failed reason
  /\ 400 <= status (snd (settle env req w)).
Proof.
  intros Hd Hrej. settle_open Hd. rewrite node_answer_log.
  destruct (node_answer env w pr tx) as [i|i e r|m];
    cbn [rejection txId_of error_of Js.truthy] in *.
  - discriminate.
  - destruct (Js.truthy e); [|discriminate].
    injection Hrej as <-. cbn. split; [reflexivity|lia].
  - injection Hrej as <-. cbn. split; [reflexivity|lia].
Qed.

(** An accepted broadcast ends [/settle] with [success: true], the payer,
    the transaction identifier and the network, whatever the polling finds;
    what the polling found goes to the console only. *)
Lemma settle_accepted (env : Env) (req : Request) (w : World)
    (pr : PaymentRequirements) (tx : Stacks.Transaction) :
  decoded env req = Some (pr, tx) ->
  rejection (node_answer env w pr tx) = None ->
  let txId := txId_of (node_answer env w pr tx) in
  let url := tx_url (apiUrl_of pr) txId in
  let t := now w + Z.of_N (http_ms env) in
  snd (settle env req w)
  = json_ok (settled (extractPayer tx) txId (networkId_of pr))
  /\ last (console (fst (settle env req w)))
     = Some ("[SETTLE] "
             +:+ (if fst (poll env url t 180000 t)
                  then "Confirmed" else "Pending (mempool)")
             +:+ ": " +:+ Js.show txId).
Proof.
  intros Hd Hacc. settle_open Hd. rewrite node_answer_log.
  destruct (node_answer env w pr tx) as [i|i e r|m];
    cbn [rejection txId_of error_of Js.truthy] in *.
  - unfold waitForTx. cbn. split; [reflexivity|]. apply last_snoc.
  - destruct (Js.truthy e); [discriminate|].
    unfold waitForTx. cbn. split; [reflexivity|]. apply last_snoc.
  - discriminate.
Qed.

Lemma settle_keeps_database (env : Env) (req : Request) (w : World) :
  database (fst (settle env req w)) = database w.
Proof.
  unfold settle.
  destruct (paymentPayload req) as [pp|]; [|reflexivity].
  destruct (paymentRequirements req) as [pr|]; [|reflexivity].
  destruct (negb (Js.truthy (txHex_of pp))); [reflexivity|].
  destruct (deserializeTransaction env _) as [tx|m]; [|reflexivity].
  cbv zeta.
  destruct (node_answer env _ pr tx) as [i|i e r|m];
    cbn [txId_of error_of Js.truthy];
    [ | destruct (Js.truthy e) | ]; unfold waitForTx; reflexivity.
Qed.

(** [/verify] writes to the console only. *)
Lemma verify_world (env : Env) (req : Request) (w : World) :
  sent (fst (verify env req w)) = sent w
  /\ now (fst (verify env req w)) = now w
  /\ database (fst (verify env req w)) = database w.
Proof.
  unfold verify.
  destruct (paymentPayload req) as [pp|]; [|repeat split].
  destruct (paymentRequirements req) as [pr|]; [|repeat split].
  destruct (negb (Js.truthy (txHex_of pp))); [repeat split|].
  destruct (deserializeTransaction env _) as [tx|m]; [|repeat split].
  destruct (Js.BigInt _) as [required|m]; [|repeat split].
  cbv zeta. destruct (txAmount_of tx <? required); repeat split.
Qed.

(** C7, amended: against a ledger that turns final [T >= 0] ms after the
    polling starts, [waitForTx] with a timeout [T1 < T] answers [false]
    (pending), and with a timeout [T2] answers [true] (confirmed) as soon as
    one of its polling instants [k * period] lies in [[T, T2)], which is so
    whenever [T + period <= T2].  [/settle] takes no timeout: it polls with
    180000 ms, logs [Confirmed] when [T + period <= 180000] and
    [Pending (mempool)] when [180000 < T], and answers in either case with
    [success: true], the payer, the transaction and the network, and with
    nothing about finality. *)
Theorem waitForTx_timeout_monotone (env : Env) (apiUrl : string)
    (txId : option string) (w : World) (T1 T T2 : Z) :
  finalizes_at env (tx_url apiUrl txId) (now w + T) ->
  0 <= T ->
  T1 < T ->
  snd (waitForTx env apiUrl txId T1 w) = false
  /\ (forall k : nat, T <= Z.of_nat k * period env < T2 ->
      snd (waitForTx env apiUrl txId T2 w) = true)
  /\ (T + period env <= T2 -> snd (waitForTx env apiUrl txId T2 w) = true)
  /\ forall (req : Request) (w0 : World) (pr : PaymentRequirements)
            (tx : Stacks.Transaction),
      decoded env req = Some (pr, tx) ->
      rejection (node_answer env w0 pr tx) = None ->
      apiUrl_of pr = apiUrl ->
      txId_of (node_answer env w0 pr tx) = txId ->
      now w0 + Z.of_N (http_ms env) = now w ->
      let r := settle env req w0 in
      (status (snd r) = 200
       /\ success (body (snd r)) = true
       /\ settle_payer (body (snd r)) = Some (extractPayer tx)
       /\ settle_transaction (body (snd r)) = txId
       /\ settle_network (body (snd r)) = Some (networkId_of pr)
       /\ settle_errorReason (body (snd r)) = None)
      /\ (T + period env <= 180000 ->
          last (console (fst r))
          = Some ("[SETTLE] Confirmed: " +:+ Js.show txId))
      /\ (180000 < T ->
          last (console (fst r))
          = Some ("[SETTLE] Pending (mempool): " +:+ Js.show txId)).
Proof.
  intros HF H0 H1.
  split; [unfold waitForTx; simpl; apply (poll_pending env _ _ T); assumption|].
  split.
  { intros k [Hk1 Hk2]. unfold waitForTx. simpl.
    apply (poll_final env _ _ _ (now w + T) k); [assumption|lia|lia]. }
  split.
  { intros H2. unfold waitForTx. simpl.
    apply (poll_confirmed env _ _ T); assumption. }
  intros req w0 pr tx Hd Hacc Hurl Hid Hnow r. subst r.
  destruct (settle_accepted env req w0 pr tx Hd Hacc) as [Hans Hlog].
  cbv zeta in Hans, Hlog. rewrite Hurl, Hid, Hnow in Hlog. rewrite Hid in Hans.
  rewrite Hans. unfold json_ok, settled.
  cbn [status body success settle_payer settle_transaction settle_network
       settle_errorReason].
  split; [repeat split|]. split.
  - intros H2. rewrite Hlog.
    rewrite (poll_confirmed env _ _ T) by assumption. reflexivity.
  - intros H2. rewrite Hlog.
    rewrite (poll_pending env _ _ T) by assumption. reflexivity.
Qed.

Lemma waitForTx_timeout_monotone_witness :
  let e := Demo.env Demo.accepted (Demo.final_at 7200) 200 in
  let w := set_now 200 Demo.w0 in
  let r := settle e (Demo.request "5000R" (Js.Str "5000")) Demo.w0 in
  snd (waitForTx e STACKS_API_TESTNET (Some "0xabc") 3000 w) = false
  /\ snd (waitForTx e STACKS_API_TESTNET (Some "0xabc") 12200 w) = true
  /\ (status (snd r) = 200
      /\ success (body (snd r)) = true
      /\ settle_payer (body (snd r)) = Some "ST6d78de7b0625dfbfc16c3a8a5735f6dc3dc3f2"
      /\ settle_transaction (body (snd r)) = Some "0xabc"
      /\ settle_network (body (snd r)) = Some "stacks:2147483648"
      /\ settle_errorReason (body (snd r)) = None)
  /\ last (console (fst r)) = Some "[SETTLE] Confirmed: 0xabc".
Proof.
  destruct (waitForTx_timeout_monotone
              (Demo.env Demo.accepted (Demo.final_at 7200) 200)
              STACKS_API_TESTNET (Some "0xabc") (set_now 200 Demo.w0)
              3000 7000 12200
              (final_at_finalizes 200 Demo.accepted _ 7200)
              ltac:(lia) ltac:(lia))
    as (Hpending & _ & Hconfirmed & Hsettle).
  split; [exact Hpending|].
  split; [apply Hconfirmed; unfold period; simpl; lia|].
  destruct (Hsettle (Demo.request "5000R" (Js.Str "5000")) Demo.w0
                    (Demo.requirement (Js.Str "5000")) (Demo.signed 5000 Demo.R)
                    eq_refl eq_refl eq_refl eq_refl eq_refl)
    as (Hanswer & Hlog & _).
  split; [exact Hanswer|].
  apply Hlog. unfold period. simpl. lia.
Defined.

Lemma aborting_aborts (rtt : N) (answer : Stacks.BroadcastResult) (url : string) :
  aborts_at (Demo.env answer Demo.aborting rtt) url 0.
Proof. intros t. split; reflexivity. Defined.

(** C3, as stated, fails: against a ledger that reports the transaction
    aborted, [waitForTx] answers [false], [/settle] logs the transaction as
    pending and returns the very response it returns against a ledger that
    confirms the transaction, so nothing that decides on this response can
    deny the one and release the other. *)
Lemma settle_abort_same_as_confirmed :
  let ea := Demo.env Demo.accepted Demo.aborting 200 in
  let ec := Demo.env Demo.accepted (Demo.final_at 0) 200 in
  let req := Demo.request "5000R" (Js.Str "5000") in
  aborts_at ea (tx_url STACKS_API_TESTNET (Some "0xabc")) 0
  /\ finalizes_at ec (tx_url STACKS_API_TESTNET (Some "0xabc")) 0
  /\ snd (settle ea req Demo.w0)
     = json_ok (settled "ST6d78de7b0625dfbfc16c3a8a5735f6dc3dc3f2"
                        (Some "0xabc") "stacks:2147483648")
  /\ last (console (fst (settle ea req Demo.w0)))
     = Some "[SETTLE] Pending (mempool): 0xabc"
  /\ last (console (fst (settle ec req Demo.w0)))
     = Some "[SETTLE] Confirmed: 0xabc"
  /\ snd (settle ea req Demo.w0) = snd (settle ec req Demo.w0)
  /\ forall gate : Response SettleBody -> bool,
       gate (snd (settle ea req Demo.w0)) = gate (snd (settle ec req Demo.w0)).
Proof.
  split; [apply aborting_aborts|].
  split; [apply final_at_finalizes|].
  repeat split; try (vm_compute; reflexivity).
Qed.

(** C3, amended: when the ledger reports a terminal abort for a transaction
    the node accepted, [/settle] logs it as pending and answers
    [success: true] with payer, transaction identifier and network, and no
    finality state: the answer is the same against every ledger, a
    confirming one included. *)
Theorem settle_abort_answers_success (env : Env) (req : Request) (w : World)
    (pr : PaymentRequirements) (tx : Stacks.Transaction) (A : Z) :
  decoded env req = Some (pr, tx) ->
  rejection (node_answer env w pr tx) = None ->
  aborts_at env (tx_url (apiUrl_of pr) (txId_of (node_answer env w pr tx))) A ->
  snd (settle env req w)
  = json_ok (settled (extractPayer tx) (txId_of (node_answer env w pr tx))
                     (networkId_of pr))
  /\ last (console (fst (settle env req w)))
     = Some ("[SETTLE] Pending (mempool): "
             +:+ Js.show (txId_of (node_answer env w pr tx)))
  /\ forall env',
       decoded env' req = Some (pr, tx) ->
       node_answer env' w pr tx = node_answer env w pr tx ->
       snd (settle env' req w) = snd (settle env req w).
Proof.
  intros Hd Hacc Hab.
  destruct (settle_accepted env req w pr tx Hd Hacc) as [Hresp Hlog].
  split; [exact Hresp|]. split.
  - rewrite Hlog. rewrite poll_never_success; [reflexivity|].
    intros u _ _. apply Hab.
  - intros env' Hd' Hsame. rewrite Hresp.
    rewrite <- Hsame in Hacc.
    destruct (settle_accepted env' req w pr tx Hd' Hacc) as [Hresp' _].
    rewrite Hresp', Hsame. reflexivity.
Qed.

Lemma settle_abort_answers_success_witness :
  let ea := Demo.env Demo.accepted Demo.aborting 200 in
  let req := Demo.request "5000R" (Js.Str "5000") in
  snd (settle ea req Demo.w0)
  = json_ok (settled (extractPayer (Demo.signed 5000 Demo.R)) (Some "0xabc")
                     "stacks:2147483648")
  /\ last (console (fst (settle ea req Demo.w0)))
     = Some "[SETTLE] Pending (mempool): 0xabc"
  /\ forall env',
       decoded env' req = Some (Demo.requirement (Js.Str "5000"), Demo.signed 5000 Demo.R) ->
       node_answer env' Demo.w0 (Demo.requirement (Js.Str "5000")) (Demo.signed 5000 Demo.R)
       = Demo.accepted ->
       snd (settle env' req Demo.w0) = snd (settle ea req Demo.w0).
Proof.
  apply (settle_abort_answers_success (Demo.env Demo.accepted Demo.aborting 200)
           (Demo.request "5000R" (Js.Str "5000")) Demo.w0
           (Demo.requirement (Js.Str "5000")) (Demo.signed 5000 Demo.R) 0).
  - reflexivity.
  - reflexivity.
  - apply aborting_aborts.
Defined.

(** C2, as stated, fails: a proof is settled and the query recorded under
    its transaction identifier; a second [/settle] with the same proof hands
    the transaction to the node once more. *)
Lemma settle_rebroadcasts_recorded_proof :
  let e := Demo.env Demo.accepted (Demo.final_at 0) 200 in
  let req := Demo.request "5000R" (Js.Str "5000") in
  let first_settle := settle e req Demo.w0 in
  let paid := {| payment_payer := settle_payer (body (snd first_settle));
                 payment_transaction := settle_transaction (body (snd first_settle)) |} in
  let w1 := fst (feed_handler e Demo.cfg WhaleAlerts (Some paid) (fst first_settle)) in
  settle_transaction (body (snd first_settle)) = Some "0xabc"
  /\ length (Db.records_of "whale-alerts" "0xabc" (database w1)) = 1%nat
  /\ sent w1 = [(Demo.signed 5000 Demo.R, STACKS_API_TESTNET)]
  /\ sent (fst (settle e req w1))
     = [(Demo.signed 5000 Demo.R, STACKS_API_TESTNET);
        (Demo.signed 5000 Demo.R, STACKS_API_TESTNET)]
  /\ snd (settle e req w1) = snd first_settle.
Proof. repeat split; vm_compute; reflexivity. Qed.

(** C2, amended: [/settle] does not consult the query ledger.  Invoked with
    a proof whose transaction identifier is already recorded, it hands the
    transaction to the node once more, leaves the ledger as it is, and
    answers as it would over any other ledger content. *)
Theorem settle_broadcasts_again (env : Env) (req : Request) (w : World)
    (pr : PaymentRequirements) (tx : Stacks.Transaction)
    (feedId txId : string) :
  decoded env req = Some (pr, tx) ->
  txId_of (node_answer env w pr tx) = Some txId ->
  Db.records_of feedId txId (database w) <> [] ->
  sent (fst (settle env req w)) = sent w ++ [(tx, apiUrl_of pr)]
  /\ database (fst (settle env req w)) = database w
  /\ forall f : Db.t -> Db.t,
       snd (settle env req (with_database f w)) = snd (settle env req w).
Proof.
  intros Hd _ _. split; [apply settle_sent; assumption|].
  split; [apply settle_keeps_database|].
  intros f. rewrite settle_database. reflexivity.
Qed.

Lemma settle_broadcasts_again_witness :
  let e := Demo.env Demo.accepted (Demo.final_at 0) 200 in
  let req := Demo.request "5000R" (Js.Str "5000") in
  let w1 := with_database
              (Db.recordQuery 400 "whale-alerts" (Some "ST6d78") (Some "0xabc")
                              120 (Some {| json := "{}" |}))
              (fst (settle e req Demo.w0)) in
  sent (fst (settle e req w1))
  = sent w1 ++ [(Demo.signed 5000 Demo.R, apiUrl_of (Demo.requirement (Js.Str "5000")))]
  /\ database (fst (settle e req w1)) = database w1
  /\ forall f : Db.t -> Db.t,
       snd (settle e req (with_database f w1)) = snd (settle e req w1).
Proof.
  apply (settle_broadcasts_again (Demo.env Demo.accepted (Demo.final_at 0) 200)
           (Demo.request "5000R" (Js.Str "5000")) _
           (Demo.requirement (Js.Str "5000")) (Demo.signed 5000 Demo.R)
           "whale-alerts" "0xabc").
  - reflexivity.
  - reflexivity.
  - vm_compute. discriminate.
Defined.

(** *** The access gate *)

(** C6: when the node refuses the broadcast of a verified proof, [/settle]
    answers [success: false] with the node's reason after a single
    broadcast, the access gate denies the request, and the query ledger is left as
    it was. *)
Theorem rejected_broadcast_is_denied (env : Env) (cfg : Config)
    (finality : Response SettleBody -> Finality) (f : Feed)
    (pr : PaymentRequirements) (pp : PaymentPayload) (w : World)
    (tx : Stacks.Transaction) (required : Z) (reason : string) :
  let req := {| paymentPayload := Some pp; paymentRequirements := Some pr |} in
  decoded env req = Some (pr, tx) ->
  Js.BigInt (Js.or_zero (amount pr)) = inl required ->
  required <= txAmount_of tx ->
  rejection (node_answer env w pr tx) = Some reason ->
  body (snd (settle env req w)) = failed reason
  /\ sent (fst (settle env req w)) = sent w ++ [(tx, apiUrl_of pr)]
  /\ snd (paid_route env cfg finality f pr (Some pp) w) = Denied (Some reason)
  /\ sent (fst (paid_route env cfg finality f pr (Some pp) w)) = sent w ++ [(tx, apiUrl_of pr)]
  /\ database (fst (paid_route env cfg finality f pr (Some pp) w)) = database w.
Proof.
  intros req Hd Hr Hge Hrej.
  split; [apply (settle_rejected env req w pr tx reason Hd Hrej)|].
  split; [apply settle_sent; assumption|].
  unfold paid_route, paymentMiddleware. fold req.
  pose proof (verify_decoded env req w pr tx required Hd Hr) as Hv.
  destruct (Z.ltb_spec (txAmount_of tx) required) as [Hlt|_]; [lia|].
  destruct (verify_world env req w) as (Hsent & Hnow & Hdb).
  destruct (verify env req w) as [w1 v]. simpl in Hv, Hsent, Hnow, Hdb.
  subst v. cbn [body json_ok isValid valid].
  assert (Hrej1 : rejection (node_answer env w1 pr tx) = Some reason).
  { unfold node_answer in *. rewrite Hsent, Hnow. exact Hrej. }
  destruct (settle_rejected env req w1 pr tx reason Hd Hrej1) as [Hbody _].
  pose proof (settle_sent env req w1 pr tx Hd) as Hsent2.
  pose proof (settle_keeps_database env req w1) as Hdb2.
  destruct (settle env req w1) as [w2 s]. simpl in Hbody, Hsent2, Hdb2.
  rewrite Hbody. cbn [success failed settle_errorReason fst snd].
  rewrite Hsent2, Hdb2, Hsent, Hdb. repeat split.
Qed.

Lemma rejected_broadcast_is_denied_witness :
  let e := Demo.env Demo.rejected Demo.never 200 in
  let pr := Demo.requirement (Js.Str "5000") in
  let pp := Demo.proof "5000R" in
  let req := {| paymentPayload := Some pp; paymentRequirements := Some pr |} in
  body (snd (settle e req Demo.w0)) = failed "ConflictingNonceInMempool"
  /\ sent (fst (settle e req Demo.w0))
     = sent Demo.w0 ++ [(Demo.signed 5000 Demo.R, apiUrl_of pr)]
  /\ snd (paid_route e Demo.cfg (fun _ => Confirmed) WhaleAlerts pr (Some pp) Demo.w0)
     = Denied (Some "ConflictingNonceInMempool")
  /\ sent (fst (paid_route e Demo.cfg (fun _ => Confirmed) WhaleAlerts pr (Some pp) Demo.w0))
     = sent Demo.w0 ++ [(Demo.signed 5000 Demo.R, apiUrl_of pr)]
  /\ database (fst (paid_route e Demo.cfg (fun _ => Confirmed) WhaleAlerts pr (Some pp) Demo.w0))
     = database Demo.w0.
Proof.
  apply (rejected_broadcast_is_denied (Demo.env Demo.rejected Demo.never 200)
           Demo.cfg (fun _ => Confirmed) WhaleAlerts (Demo.requirement (Js.Str "5000"))
           (Demo.proof "5000R") Demo.w0 (Demo.signed 5000 Demo.R) 5000
           "ConflictingNonceInMempool").
  - reflexivity.
  - reflexivity.
  - vm_compute. discriminate.
  - reflexivity.
Defined.

(** *** The query ledger *)

Lemma or_null_nonempty (x : string) : x <> "" -> Js.or_null (Some x) = Some x.
Proof.
  intros Hx. unfold Js.or_null, Js.truthy.
  destruct (String.eqb_spec x ""); [contradiction|reflexivity].
Qed.

(** [recordQuery] inserts unconditionally: the records of a resource that
    carry a transaction identifier grow by one with every call that names
    the two. *)
Lemma recordQuery_records (t : Z) (feedId txId : string) (payer : option string)
    (ms : Z) (data : option FeedData) (db : Db.t) :
  txId <> "" ->
  length (Db.records_of feedId txId
            (Db.recordQuery t feedId payer (Some txId) ms data db))
  = S (length (Db.records_of feedId txId db)).
Proof.
  intros Hx. unfold Db.records_of, Db.recordQuery. cbn [Db.queries].
  rewrite filter_app, length_app, or_null_nonempty by assumption.
  rewrite filter_cons_True by (split; reflexivity).
  cbn. lia.
Qed.

Lemma feed_finish_records (cfg : Config) (f : Feed) (p : Payment)
    (txId : string) (s : Suspended) (w : World) :
  payment_transaction p = Some txId ->
  txId <> "" ->
  let r := feed_finish cfg f (Some p) s w in
  length (Db.records_of (feed_name f) txId (database (fst r)))
  = S (length (Db.records_of (feed_name f) txId (database w)))
  /\ status (snd r) = 200
  /\ tx (body (snd r)) = Some txId.
Proof.
  intros Hp Hx. unfold feed_finish. rewrite Hp.
  cbn [fst snd with_database database json_ok status body tx].
  split; [apply recordQuery_records; assumption|].
  split; [reflexivity|apply or_null_nonempty; assumption].
Qed.

Section TwoRequests.

Variable env : Env.
Variable cfg : Config.
Variable f : Feed.
Variable p : Payment.
Variable txId : string.
Hypothesis p_tx : payment_transaction p = Some txId.
Hypothesis txId_nonempty : txId <> "".

Lemma advance_inv (t : Task) (w : World) :
  released txId t ->
  recorded f txId (fst (advance env cfg f (Some p) t w))
  = (recorded f txId w + answers (snd (advance env cfg f (Some p) t w))
     - answers t)%nat
  /\ (answers t <= answers (snd (advance env cfg f (Some p) t w)))%nat
  /\ released txId (snd (advance env cfg f (Some p) t w)).
Proof using p_tx txId_nonempty.
  intros Hrel. destruct t as [|s|r0]; cbn [advance].
  - cbn. split; [lia|]. split; [lia|]. intros r Hr. discriminate.
  - destruct (feed_finish_records cfg f p txId s (resume s w) p_tx txId_nonempty)
      as (Hlen & Hst & Htx).
    destruct (feed_finish cfg f (Some p) s (resume s w)) as [w1 r].
    cbn [fst snd answers] in *. unfold recorded.
    split; [|split; [lia|]].
    + rewrite Hlen. cbn. lia.
    + intros r' Hr'. injection Hr' as <-. split; assumption.
  - cbn. split; [lia|]. split; [lia|]. exact Hrel.
Qed.

Lemma step_inv (n : nat) (sys : System) (who : bool) :
  one_record_per_answer f txId n sys ->
  one_record_per_answer f txId n (step env cfg f (Some p) sys who).
Proof using p_tx txId_nonempty.
  intros (Hrec & H1 & H2). unfold step. destruct who.
  - destruct (advance_inv (first sys) (world sys) H1) as (Ha & Hle & Hr).
    destruct (advance env cfg f (Some p) (first sys) (world sys)) as [w t].
    cbn in *. split; [|split; assumption]. cbn. lia.
  - destruct (advance_inv (second sys) (world sys) H2) as (Ha & Hle & Hr).
    destruct (advance env cfg f (Some p) (second sys) (world sys)) as [w t].
    cbn in *. split; [|split; assumption]. cbn. lia.
Qed.

Lemma run_inv (n : nat) (schedule : list bool) (sys : System) :
  one_record_per_answer f txId n sys ->
  one_record_per_answer f txId n (run env cfg f (Some p) schedule sys).
Proof using p_tx txId_nonempty.
  revert sys. unfold run.
  induction schedule as [|who rest IH]; intros sys Hinv; [exact Hinv|].
  cbn [fold_left]. apply IH, step_inv, Hinv.
Qed.

End TwoRequests.

(** C1, as stated, fails: two requests to /feeds/whale-alerts that the access gate
    let through with the payment of one transaction, their handlers
    interleaved at the [await], are both answered 200 with that transaction,
    and the ledger holds two records of it. *)
Lemma same_proof_recorded_twice :
  let e := Demo.env Demo.accepted (Demo.final_at 0) 200 in
  let paid := {| payment_payer := Some "ST6d78de7b0625dfbfc16c3a8a5735f6dc3dc3f2";
                 payment_transaction := Some "0xabc" |} in
  let final := run e Demo.cfg WhaleAlerts (Some paid) [true; false; false; true]
                   {| world := Demo.w0; first := Waiting; second := Waiting |} in
  option_map (fun r => (status r, tx (body r))) (answered (first final))
  = Some (200, Some "0xabc")
  /\ option_map (fun r => (status r, tx (body r))) (answered (second final))
     = Some (200, Some "0xabc")
  /\ length (Db.records_of "whale-alerts" "0xabc" (database (world final))) = 2%nat
  /\ map Db.tx_hash (Db.queries (database (world final)))
     = [Some "0xabc"; Some "0xabc"].
Proof. repeat split; vm_compute; reflexivity. Qed.

(** A turn takes a handler one stage further, up to its answer. *)
Lemma advance_stage (env : Env) (cfg : Config) (f : Feed)
    (payment : option Payment) (t : Task) (w : World) :
  stage (snd (advance env cfg f payment t w)) = Nat.min 2 (S (stage t)).
Proof.
  destruct t as [|s|r]; cbn [advance]; [reflexivity| |reflexivity].
  destruct (feed_finish cfg f payment s (resume s w)) as [w1 r]. reflexivity.
Qed.

Lemma step_stage (env : Env) (cfg : Config) (f : Feed)
    (payment : option Payment) (sys : System) (who : bool) :
  stage (first (step env cfg f payment sys who))
  = (if who then Nat.min 2 (S (stage (first sys))) else stage (first sys))
  /\ stage (second (step env cfg f payment sys who))
     = (if who then stage (second sys) else Nat.min 2 (S (stage (second sys)))).
Proof.
  unfold step. destruct who.
  - pose proof (advance_stage env cfg f payment (first sys) (world sys)) as H.
    destruct (advance env cfg f payment (first sys) (world sys)) as [w t].
    split; [exact H|reflexivity].
  - pose proof (advance_stage env cfg f payment (second sys) (world sys)) as H.
    destruct (advance env cfg f payment (second sys) (world sys)) as [w t].
    split; [reflexivity|exact H].
Qed.

(** After a schedule each handler has come as far as the turns it was
    given take it. *)
Lemma run_stage (env : Env) (cfg : Config) (f : Feed)
    (payment : option Payment) (schedule : list bool) (sys : System) :
  stage (first (run env cfg f payment schedule sys))
  = Nat.min 2 (stage (first sys) + count_occ Bool.bool_dec schedule true)
  /\ stage (second (run env cfg f payment schedule sys))
     = Nat.min 2 (stage (second sys) + count_occ Bool.bool_dec schedule false).
Proof.
  assert (Hle : forall t, (stage t <= 2)%nat) by (intros []; cbn; lia).
  revert sys. unfold run.
  induction schedule as [|who rest IH]; intros sys.
  - cbn [fold_left count_occ]. pose proof (Hle (first sys)).
    pose proof (Hle (second sys)). lia.
  - cbn [fold_left]. destruct (IH (step env cfg f payment sys who)) as [H1 H2].
    destruct (step_stage env cfg f payment sys who) as [S1 S2].
    rewrite H1, H2, S1, S2. clear H1 H2 S1 S2.
    destruct who; cbn [count_occ];
      repeat match goal with
             | |- context [Bool.bool_dec ?a ?b] =>
                 destruct (Bool.bool_dec a b); try discriminate; try congruence
             end; lia.
Qed.

Lemma stage_answered (t : Task) : stage t = 2%nat -> exists r, t = Answered r.
Proof. destruct t as [|s|r]; cbn; intros H; try discriminate. eauto. Qed.

(** Whatever a handler holds came from the generator, and the clock does
    not go back. *)
Lemma advance_produced (env : Env) (cfg : Config) (f : Feed)
    (payment : option Payment) (t0 : Z) (t : Task) (w : World) :
  t0 <= now w ->
  produced env f t0 t ->
  t0 <= now (fst (advance env cfg f payment t w))
  /\ produced env f t0 (snd (advance env cfg f payment t w)).
Proof.
  intros Hw Hp. destruct t as [|s|r]; cbn [advance].
  - cbn. split; [exact Hw|]. exists (now w). split; [exact Hw|reflexivity].
  - unfold feed_finish, resume. cbn. split; [lia|exact Hp].
  - cbn. split; [exact Hw|exact Hp].
Qed.

Lemma run_produced (env : Env) (cfg : Config) (f : Feed)
    (payment : option Payment) (t0 : Z) (schedule : list bool) (sys : System) :
  t0 <= now (world sys) ->
  produced env f t0 (first sys) ->
  produced env f t0 (second sys) ->
  produced env f t0 (first (run env cfg f payment schedule sys))
  /\ produced env f t0 (second (run env cfg f payment schedule sys)).
Proof.
  revert sys. unfold run.
  induction schedule as [|who rest IH]; intros sys Hw H1 H2; [split; assumption|].
  cbn [fold_left]. apply IH; unfold step; destruct who.
  - destruct (advance_produced env cfg f payment t0 _ _ Hw H1) as [A _].
    destruct (advance env cfg f payment (first sys) (world sys)). exact A.
  - destruct (advance_produced env cfg f payment t0 _ _ Hw H2) as [A _].
    destruct (advance env cfg f payment (second sys) (world sys)). exact A.
  - destruct (advance_produced env cfg f payment t0 _ _ Hw H1) as [_ B].
    destruct (advance env cfg f payment (first sys) (world sys)). exact B.
  - destruct (advance env cfg f payment (second sys) (world sys)). exact H1.
  - destruct (advance env cfg f payment (first sys) (world sys)). exact H2.
  - destruct (advance_produced env cfg f payment t0 _ _ Hw H2) as [_ B].
    destruct (advance env cfg f payment (second sys) (world sys)). exact B.
Qed.

(** C1, amended: the ledger keeps one record per released request, not per
    transaction.  Two requests to a paid route carry the payment of one
    transaction; their handlers are interleaved in whatever order, each
    being given its two turns (up to the [await], and after it).  Then both
    are answered, both answers are 200 with that transaction and with data
    the generator returned, and the ledger has gained two records of the
    transaction. *)
Theorem every_release_is_recorded (env : Env) (cfg : Config) (f : Feed)
    (p : Payment) (txId : string) (schedule : list bool) (w : World) :
  payment_transaction p = Some txId ->
  txId <> "" ->
  (2 <= count_occ Bool.bool_dec schedule true)%nat ->
  (2 <= count_occ Bool.bool_dec schedule false)%nat ->
  let final := run env cfg f (Some p) schedule
                   {| world := w; first := Waiting; second := Waiting |} in
  exists r1 r2 : Response FeedBody,
    first final = Answered r1
    /\ second final = Answered r2
    /\ length (Db.records_of (feed_name f) txId (database (world final)))
       = (2 + length (Db.records_of (feed_name f) txId (database w)))%nat
    /\ (status r1 = 200 /\ tx (body r1) = Some txId
        /\ exists u, now w <= u /\ data (body r1) = fst (generate env f u))
    /\ (status r2 = 200 /\ tx (body r2) = Some txId
        /\ exists u, now w <= u /\ data (body r2) = fst (generate env f u)).
Proof.
  intros Hp Hx Ht Hf final.
  set (sys := {| world := w; first := Waiting; second := Waiting |}) in final.
  destruct (run_stage env cfg f (Some p) schedule sys) as [S1 S2].
  cbn [sys first second stage] in S1, S2.
  destruct (stage_answered (first final)) as [r1 Hr1]; [subst final; lia|].
  destruct (stage_answered (second final)) as [r2 Hr2]; [subst final; lia|].
  exists r1, r2. split; [exact Hr1|]. split; [exact Hr2|].
  assert (Hinv : one_record_per_answer f txId (recorded f txId w) final).
  { apply (run_inv env cfg f p txId Hp Hx). unfold one_record_per_answer. cbn.
    split; [lia|]. split; intros r Hr; discriminate. }
  destruct Hinv as (Hrec & H1 & H2). rewrite Hr1, Hr2 in Hrec.
  unfold recorded in Hrec. cbn [answers] in Hrec.
  destruct (run_produced env cfg f (Some p) (now w) schedule sys) as [P1 P2];
    [cbn; lia|exact I|exact I|].
  fold final in P1, P2. rewrite Hr1 in P1. rewrite Hr2 in P2.
  cbn [produced] in P1, P2.
  destruct (H1 r1 Hr1) as [Hs1 Htx1]. destruct (H2 r2 Hr2) as [Hs2 Htx2].
  split; [lia|]. split; (split; [|split]); assumption.
Qed.

Lemma every_release_is_recorded_witness :
  let e := Demo.env_dated Demo.accepted (Demo.final_at 0) 200 in
  let paid := {| payment_payer := Some "ST6d78"; payment_transaction := Some "0xabc" |} in
  let final := run e Demo.cfg BtcSentiment (Some paid) [false; true; true; false]
                   {| world := Demo.w0; first := Waiting; second := Waiting |} in
  exists r1 r2 : Response FeedBody,
    first final = Answered r1
    /\ second final = Answered r2
    /\ length (Db.records_of (feed_name BtcSentiment) "0xabc" (database (world final)))
       = (2 + length (Db.records_of (feed_name BtcSentiment) "0xabc" (database Demo.w0)))%nat
    /\ (status r1 = 200 /\ tx (body r1) = Some "0xabc"
        /\ exists u, now Demo.w0 <= u /\ data (body r1) = fst (generate e BtcSentiment u))
    /\ (status r2 = 200 /\ tx (body r2) = Some "0xabc"
        /\ exists u, now Demo.w0 <= u /\ data (body r2) = fst (generate e BtcSentiment u)).
Proof.
  apply (every_release_is_recorded
           (Demo.env_dated Demo.accepted (Demo.final_at 0) 200)
           Demo.cfg BtcSentiment
           {| payment_payer := Some "ST6d78"; payment_transaction := Some "0xabc" |}
           "0xabc" [false; true; true; false] Demo.w0).
  - reflexivity.
  - discriminate.
  - cbn. lia.
  - cbn. lia.
Defined.

(** *** The wallet route *)

Lemma feed_of_id_name (i : string) (f : Feed) :
  feed_of_id i = Some f -> feed_name f = i /\ i <> "".
Proof.
  unfold feed_of_id, validFeeds. cbn [List.find feed_name].
  repeat match goal with
         | |- context [String.eqb ?a i] => destruct (String.eqb_spec a i)
         end;
    intros H; try discriminate H; injection H as <-; subst i;
    (split; [reflexivity|discriminate]).
Qed.

Lemma truthy_nonempty (x : string) : x <> "" -> Js.truthy (Some x) = true.
Proof.
  intros Hx. unfold Js.truthy.
  destruct (String.eqb_spec x ""); [contradiction|reflexivity].
Qed.

(** C8: POST /wallet/buy with a known feed and any non-empty [txId] and
    [senderAddress] calls the generator of that feed, answers 200 with the
    data it returned and appends a record carrying that [txId], that
    [senderAddress] and those data; nothing is broadcast or logged, and no
    oracle of the payment path is consulted. *)
Theorem wallet_buy_releases_unverified (env : Env) (cfg : Config)
    (req : WalletRequest) (w : World) (i : string) (f : Feed)
    (t sender : string) :
  feedId req = Some i ->
  feed_of_id i = Some f ->
  txId req = Some t -> t <> "" ->
  senderAddress req = Some sender -> sender <> "" ->
  let r := wallet_buy env cfg req w in
  let d := fst (generate env f (now w)) in
  status (snd r) = 200
  /\ (exists b, body (snd r) = WalletData b
                /\ data b = d /\ feed b = i /\ tx b = Some t /\ paid_by b = sender)
  /\ (exists row, Db.queries (database (fst r)) = Db.queries (database w) ++ [row]
                  /\ Db.feed_id row = i
                  /\ Db.tx_hash row = Some t
                  /\ Db.payer row = Some sender
                  /\ Db.response_data row = Some (json d))
  /\ sent (fst r) = sent w
  /\ console (fst r) = console w
  /\ forall env', generate env' f (now w) = generate env f (now w) ->
                  wallet_buy env' cfg req w = wallet_buy env cfg req w.
Proof.
  intros Hi Hf Ht Htne Hs Hsne r d. subst r d.
  destruct (feed_of_id_name i f Hf) as [Hname Hine].
  unfold wallet_buy. rewrite Hi, Ht, Hs.
  rewrite !truthy_nonempty by assumption. cbn [andb negb Js.or_else].
  destruct (String.eqb_spec i ""); [contradiction|]. rewrite Hf.
  unfold feed_begin. cbn.
  split; [reflexivity|].
  split.
  { eexists. split; [reflexivity|]. cbn.
    destruct (String.eqb_spec sender ""); [contradiction|].
    repeat split. exact Hname. }
  split.
  { eexists. split; [reflexivity|]. cbn.
    rewrite !or_null_nonempty by assumption. repeat split. exact Hname. }
  split; [reflexivity|]. split; [reflexivity|].
  intros env' Hg. rewrite Hg. reflexivity.
Qed.

Lemma wallet_buy_releases_unverified_witness :
  let e := Demo.env_dated Demo.rejected Demo.never 200 in
  let req := {| feedId := Some "defi-scores"; txId := Some "anything";
                senderAddress := Some "anyone" |} in
  let w := set_now 7000 Demo.w0 in
  let r := wallet_buy e Demo.cfg req w in
  let d := {| json := "defi-scores@7000" |} in
  status (snd r) = 200
  /\ (exists b, body (snd r) = WalletData b
                /\ data b = d /\ feed b = "defi-scores" /\ tx b = Some "anything"
                /\ paid_by b = "anyone")
  /\ (exists row, Db.queries (database (fst r)) = Db.queries (database w) ++ [row]
                  /\ Db.feed_id row = "defi-scores"
                  /\ Db.tx_hash row = Some "anything"
                  /\ Db.payer row = Some "anyone"
                  /\ Db.response_data row = Some (json d))
  /\ sent (fst r) = sent w
  /\ console (fst r) = console w
  /\ forall env', generate env' DefiScores (now w) = generate e DefiScores (now w) ->
                  wallet_buy env' Demo.cfg req w = wallet_buy e Demo.cfg req w.
Proof.
  apply (wallet_buy_releases_unverified
           (Demo.env_dated Demo.rejected Demo.never 200) Demo.cfg
           {| feedId := Some "defi-scores"; txId := Some "anything";
              senderAddress := Some "anyone" |}
           (set_now 7000 Demo.w0) "defi-scores" DefiScores "anything" "anyone");
    try reflexivity; discriminate.
Defined.

(** With the access gate as specified in front of the handler: whatever way the
    gate reads finality off the answer of /settle, it ends a request paid
    with an aborted transaction as it ends one paid with a confirmed
    transaction; when it releases, the query is recorded. *)
Remark gate_cannot_tell_aborted_from_confirmed
    (finality : Response SettleBody -> Finality) :
  let ea := Demo.env Demo.accepted Demo.aborting 200 in
  let ec := Demo.env Demo.accepted (Demo.final_at 0) 200 in
  let route e := paid_route e Demo.cfg finality WhaleAlerts
                            (Demo.requirement (Js.Str "5000"))
                            (Some (Demo.proof "5000R")) Demo.w0 in
  snd (route ea) = snd (route ec)
  /\ (finality (json_ok (settled "ST6d78de7b0625dfbfc16c3a8a5735f6dc3dc3f2"
                                 (Some "0xabc") "stacks:2147483648")) <> Aborted ->
      (exists a, snd (route ea) = Released a /\ tx (body a) = Some "0xabc")
      /\ length (Db.records_of "whale-alerts" "0xabc" (database (fst (route ea))))
         = 1%nat).
Proof.
  cbv zeta. unfold paid_route, paymentMiddleware.
  repeat match goal with
         | |- context [verify ?e ?r ?w] =>
             let v := eval vm_compute in (verify e r w) in
             replace (verify e r w) with v by (vm_compute; reflexivity)
         end.
  cbn [isValid body].
  repeat match goal with
         | |- context [settle ?e ?r ?w] =>
             let v := eval vm_compute in (settle e r w) in
             replace (settle e r w) with v by (vm_compute; reflexivity)
         end.
  cbn [success body].
  change (json_ok (settled "ST6d78de7b0625dfbfc16c3a8a5735f6dc3dc3f2"
                           (Some "0xabc") "stacks:2147483648"))
    with ({| status := 200;
             body := {| success := true;
                        settle_payer := Some "ST6d78de7b0625dfbfc16c3a8a5735f6dc3dc3f2";
                        settle_transaction := Some "0xabc";
                        settle_network := Some "stacks:2147483648";
                        settle_errorReason := None |} |}).
  destruct (finality _); (split; [reflexivity|]); intros Hne;
    try contradiction; (split; [eexists; split|]; vm_compute; reflexivity).
Qed.

(** Without a proof the access gate challenges and the handler does not run. *)
Remark gate_challenges_without_proof (env : Env) (cfg : Config)
    (finality : Response SettleBody -> Finality) (f : Feed)
    (pr : PaymentRequirements) (w : World) :
  paid_route env cfg finality f pr None w = (w, Challenged pr).
Proof. reflexivity. Qed.

(* ===================================================================== *)
(** ** Further properties of the facilitator *)
(* ===================================================================== *)

(** X1: [/verify] answers valid only for a request whose proof decodes,
    whose required amount converts, and whose transaction commits at least
    that amount; the answer then is 200 with the payer derived from the
    transaction. *)
Theorem verify_valid_sound (env : Env) (req : Request) (w : World) :
  isValid (body (snd (verify env req w))) = true ->
  exists pr tx required,
    decoded env req = Some (pr, tx)
    /\ Js.BigInt (Js.or_zero (amount pr)) = inl required
    /\ required <= txAmount_of tx
    /\ snd (verify env req w) = json_ok (valid (extractPayer tx)).
Proof.
  unfold verify, decoded.
  destruct (paymentPayload req) as [pp|]; [|discriminate].
  destruct (paymentRequirements req) as [pr|]; [|discriminate].
  destruct (Js.truthy (txHex_of pp)); cbn [negb]; [|discriminate].
  destruct (deserializeTransaction env _) as [tx|m]; [|discriminate].
  destruct (Js.BigInt _) as [required|m] eqn:Hr; [|discriminate].
  cbv zeta. destruct (Z.ltb_spec (txAmount_of tx) required); [discriminate|].
  intros _. exists pr, tx, required. repeat split; assumption.
Qed.

Lemma verify_valid_sound_witness :
  exists pr tx required,
    decoded (Demo.env Demo.accepted Demo.never 0)
            (Demo.request "5000R" (Js.Str "3000")) = Some (pr, tx)
    /\ Js.BigInt (Js.or_zero (amount pr)) = inl required
    /\ required <= txAmount_of tx
    /\ snd (verify (Demo.env Demo.accepted Demo.never 0)
                   (Demo.request "5000R" (Js.Str "3000")) Demo.w0)
       = json_ok (valid (extractPayer tx)).
Proof.
  apply (verify_valid_sound (Demo.env Demo.accepted Demo.never 0)
           (Demo.request "5000R" (Js.Str "3000")) Demo.w0).
  reflexivity.
Defined.

(** X2: every answer of [/verify] is well formed: it carries an error
    reason exactly when it is invalid and a payer exactly when it is valid;
    a valid answer has status 200, and an invalid one has status 200 only
    for an insufficient amount and 400 otherwise. *)
Theorem verify_answer_shape (env : Env) (req : Request) (w : World) :
  let r := snd (verify env req w) in
  (isValid (body r) = false <-> is_Some (errorReason (body r)))
  /\ (isValid (body r) = true <-> is_Some (payer (body r)))
  /\ (isValid (body r) = true -> status r = 200)
  /\ (status r = 200 \/ status r = 400)
  /\ (isValid (body r) = false -> status r = 200 ->
      exists a b, errorReason (body r) = Some (insufficient a b) /\ a < b).
Proof.
  unfold verify.
  destruct (paymentPayload req) as [pp|];
    [|cbn; repeat split; eauto; try discriminate; intros [? ?]; discriminate].
  destruct (paymentRequirements req) as [pr|];
    [|cbn; repeat split; eauto; try discriminate; intros [? ?]; discriminate].
  destruct (negb (Js.truthy (txHex_of pp)));
    [cbn; repeat split; eauto; try discriminate; intros [? ?]; discriminate|].
  destruct (deserializeTransaction env _) as [tx|m];
    [|cbn; repeat split; eauto; try discriminate; intros [? ?]; discriminate].
  destruct (Js.BigInt _) as [required|m];
    [|cbn; repeat split; eauto; try discriminate; intros [? ?]; discriminate].
  cbv zeta. destruct (Z.ltb_spec (txAmount_of tx) required); cbn.
  - repeat split; eauto; try discriminate; intros [? ?]; discriminate.
  - repeat split; eauto; try discriminate; intros [? ?]; discriminate.
Qed.

(** X3: [/verify] changes nothing but the console: no transaction is
    broadcast, the database and the clock are untouched, and at most one line
    is logged. *)
Theorem verify_only_logs (env : Env) (req : Request) (w : World) :
  let w' := fst (verify env req w) in
  sent w' = sent w
  /\ database w' = database w
  /\ now w' = now w
  /\ (console w' = console w \/ exists line, console w' = console w ++ [line]).
Proof.
  unfold verify.
  destruct (paymentPayload req) as [pp|]; [|cbn; auto].
  destruct (paymentRequirements req) as [pr|]; [|cbn; auto].
  destruct (negb (Js.truthy (txHex_of pp))); [cbn; auto|].
  destruct (deserializeTransaction env _) as [tx|m]; [|cbn; eauto 6].
  destruct (Js.BigInt _) as [required|m]; [|cbn; eauto 6].
  cbv zeta. destruct (txAmount_of tx <? required); cbn; eauto 6.
Qed.

Lemma length_slice0 (n : nat) (s : string) :
  (String.length (Js.slice0 n s) <= n)%nat.
Proof.
  unfold Js.slice0. revert s. induction n as [|n IH]; intros [|c s]; cbn; try lia.
  specialize (IH s). lia.
Qed.

Lemma length_append (a b : string) :
  String.length (a +:+ b) = (String.length a + String.length b)%nat.
Proof.
  induction a as [|c a IH]; [reflexivity|].
  change (S (String.length (a +:+ b)) = S (String.length a + String.length b)).
  rewrite IH. reflexivity.
Qed.

(** X4: when the transaction has a signer, the payer is ["ST"] followed by
    the first 38 characters of the signer, whatever the address field holds;
    it is at most 40 characters long, and two signers that agree on their
    first 38 characters give the same payer. *)
Theorem extractPayer_truncates_signer (tx1 tx2 : Stacks.Transaction)
    (s1 s2 : string) :
  signer_of tx1 = Some s1 -> s1 <> "" ->
  signer_of tx2 = Some s2 -> s2 <> "" ->
  Js.slice0 38 s1 = Js.slice0 38 s2 ->
  extractPayer tx1 = "ST" +:+ Js.slice0 38 s1
  /\ (String.length (extractPayer tx1) <= 40)%nat
  /\ extractPayer tx1 = extractPayer tx2.
Proof.
  intros H1 Hn1 H2 Hn2 Heq. unfold extractPayer. rewrite H1, H2.
  rewrite !truthy_nonempty by assumption. cbn [Js.or_else].
  destruct (String.eqb_spec s1 ""); [contradiction|].
  destruct (String.eqb_spec s2 ""); [contradiction|].
  split; [reflexivity|]. split.
  - rewrite length_append. pose proof (length_slice0 38 s1). cbn. lia.
  - rewrite Heq. reflexivity.
Qed.

Lemma extractPayer_truncates_signer_witness :
  let long1 := "6d78de7b0625dfbfc16c3a8a5735f6dc3dc3f2ce" in
  let long2 := "6d78de7b0625dfbfc16c3a8a5735f6dc3dc3f2ff" in
  let tx s := {| Stacks.auth :=
                   Some {| Stacks.spendingCondition :=
                             Some {| Stacks.signer := Some s;
                                     Stacks.address := Some "SP000" |} |};
                 Stacks.payload := {| Stacks.amount := None;
                                      Stacks.recipient := None |} |} in
  extractPayer (tx long1) = "ST" +:+ Js.slice0 38 long1
  /\ (String.length (extractPayer (tx long1)) <= 40)%nat
  /\ extractPayer (tx long1) = extractPayer (tx long2).
Proof.
  cbv zeta.
  apply (extractPayer_truncates_signer _ _
           "6d78de7b0625dfbfc16c3a8a5735f6dc3dc3f2ce"
           "6d78de7b0625dfbfc16c3a8a5735f6dc3dc3f2ff");
    try reflexivity; discriminate.
Defined.

Lemma settle_undecoded (env : Env) (req : Request) (w : World) :
  decoded env req = None ->
  let r := settle env req w in
  success (body (snd r)) = false
  /\ is_Some (settle_errorReason (body (snd r)))
  /\ (status (snd r) = 400 \/ status (snd r) = 500)
  /\ sent (fst r) = sent w
  /\ now (fst r) = now w
  /\ database (fst r) = database w.
Proof.
  unfold decoded, settle.
  destruct (paymentPayload req) as [pp|]; [|cbn; intros _; repeat split; eauto].
  destruct (paymentRequirements req) as [pr|]; [|cbn; intros _; repeat split; eauto].
  destruct (Js.truthy (txHex_of pp)); cbn [negb];
    [|cbn; intros _; repeat split; eauto].
  destruct (deserializeTransaction env _) as [tx|m]; [discriminate|].
  cbn. intros _. repeat split; eauto.
Qed.

(** X5: a request to [/settle] whose proof does not decode (payload or
    requirements missing, no transaction, or a transaction that does not
    deserialise) is answered [success: false] with status 400 or 500, and
    nothing is broadcast: the node is not contacted and the clock does not
    move. *)
Theorem settle_undecodable_not_broadcast (env : Env) (req : Request) (w : World) :
  decoded env req = None ->
  let r := settle env req w in
  success (body (snd r)) = false
  /\ is_Some (settle_errorReason (body (snd r)))
  /\ (status (snd r) = 400 \/ status (snd r) = 500)
  /\ sent (fst r) = sent w
  /\ now (fst r) = now w
  /\ database (fst r) = database w.
Proof.
  intros Hd r. subst r.
  destruct (settle_undecoded env req w Hd) as (H1 & H2 & H3 & H4 & H5 & H6).
  repeat split; assumption.
Qed.

Lemma settle_undecodable_not_broadcast_witness :
  let r := settle (Demo.env Demo.accepted Demo.never 200)
                  (Demo.request "garbage" (Js.Str "5000")) Demo.w0 in
  success (body (snd r)) = false
  /\ is_Some (settle_errorReason (body (snd r)))
  /\ (status (snd r) = 400 \/ status (snd r) = 500)
  /\ sent (fst r) = sent Demo.w0
  /\ now (fst r) = now Demo.w0
  /\ database (fst r) = database Demo.w0.
Proof.
  apply (settle_undecodable_not_broadcast (Demo.env Demo.accepted Demo.never 200)
           (Demo.request "garbage" (Js.Str "5000")) Demo.w0).
  reflexivity.
Defined.

(** X6: [/settle] succeeds exactly when the proof decodes and the node does
    not refuse the broadcast, and its status is 200 exactly then; what the
    polling finds has no part in it. *)
Theorem settle_success_iff (env : Env) (req : Request) (w : World) :
  (success (body (snd (settle env req w))) = true
   <-> exists pr tx, decoded env req = Some (pr, tx)
                     /\ rejection (node_answer env w pr tx) = None)
  /\ (status (snd (settle env req w)) = 200
      <-> success (body (snd (settle env req w))) = true).
Proof.
  destruct (decoded env req) as [[pr tx]|] eqn:Hd.
  - destruct (rejection (node_answer env w pr tx)) as [reason|] eqn:Hrej.
    + destruct (settle_rejected env req w pr tx reason Hd Hrej) as [Hb Hst].
      rewrite Hb. cbn [success failed]. split; split.
      * discriminate.
      * intros (pr' & tx' & Heq & Hnone). injection Heq as <- <-. congruence.
      * intros H200. lia.
      * discriminate.
    + destruct (settle_accepted env req w pr tx Hd Hrej) as [Hb _].
      rewrite Hb. cbn. split; split; try reflexivity.
      intros _. exists pr, tx. split; [reflexivity|assumption].
  - destruct (settle_undecoded env req w Hd) as (Hs & _ & Hst & _).
    rewrite Hs. split; split.
    + discriminate.
    + intros (pr & tx & Heq & _). discriminate.
    + destruct Hst as [-> | ->]; discriminate.
    + discriminate.
Qed.

(** X7: [/settle] sends the transaction to the mainnet API exactly when the
    requirements name the network ["stacks:1"]; every other network
    identifier, an unknown or a missing one included, goes to the testnet
    API, while a successful answer echoes the identifier as it was given
    (["stacks:2147483648"] when there was none). *)
Theorem settle_network_selection (env : Env) (req : Request) (w : World)
    (pr : PaymentRequirements) (tx : Stacks.Transaction) :
  decoded env req = Some (pr, tx) ->
  let mainnet := bool_decide (network pr = Some "stacks:1") in
  sent (fst (settle env req w))
  = sent w ++ [(tx, if mainnet then "https://api.hiro.so"
                    else "https://api.testnet.hiro.so")]
  /\ (success (body (snd (settle env req w))) = true ->
      settle_network (body (snd (settle env req w)))
      = Some (Js.or_else (network pr) "stacks:2147483648")).
Proof.
  intros Hd mainnet. split.
  - rewrite (settle_sent env req w pr tx Hd). do 3 f_equal.
    unfold apiUrl_of, isMainnet_of, networkId_of, mainnet, Js.or_else.
    destruct (network pr) as [n|].
    + destruct (String.eqb_spec n "").
      * subst n. cbn. rewrite bool_decide_eq_false_2 by discriminate. reflexivity.
      * destruct (String.eqb_spec n "stacks:1").
        -- subst n. rewrite bool_decide_eq_true_2 by reflexivity. reflexivity.
        -- rewrite bool_decide_eq_false_2 by congruence. reflexivity.
    + cbn. rewrite bool_decide_eq_false_2 by discriminate. reflexivity.
  - destruct (rejection (node_answer env w pr tx)) as [reason|] eqn:Hrej.
    + destruct (settle_rejected env req w pr tx reason Hd Hrej) as [Hb _].
      rewrite Hb. discriminate.
    + destruct (settle_accepted env req w pr tx Hd Hrej) as [Hb _].
      rewrite Hb. reflexivity.
Qed.

Lemma settle_network_selection_witness :
  let e := Demo.env Demo.accepted (Demo.final_at 0) 200 in
  let pr := {| amount := Js.Str "5000"; network := Some "mainnet";
               payTo := Some Demo.R |} in
  let req := {| paymentPayload := Some (Demo.proof "5000R");
                paymentRequirements := Some pr |} in
  sent (fst (settle e req Demo.w0))
  = sent Demo.w0 ++ [(Demo.signed 5000 Demo.R, "https://api.testnet.hiro.so")]
  /\ (success (body (snd (settle e req Demo.w0))) = true ->
      settle_network (body (snd (settle e req Demo.w0))) = Some "mainnet").
Proof.
  exact (settle_network_selection (Demo.env Demo.accepted (Demo.final_at 0) 200)
           {| paymentPayload := Some (Demo.proof "5000R");
              paymentRequirements :=
                Some {| amount := Js.Str "5000"; network := Some "mainnet";
                        payTo := Some Demo.R |} |}
           Demo.w0
           {| amount := Js.Str "5000"; network := Some "mainnet";
              payTo := Some Demo.R |}
           (Demo.signed 5000 Demo.R) eq_refl).
Defined.

Section PollingCases.

Variable env : Env.
Variable url : string.
Variables start timeoutMs : Z.

(** Induction along the polling instants. *)
Lemma poll_induction (P : Z -> Prop) :
  (forall t,
     (t - start < timeoutMs ->
      is_success (axios_get env t url) = false ->
      is_abort (axios_get env t url) = false ->
      P (t + period env)) ->
     P t) ->
  forall t, P t.
Proof.
  intros Hstep t.
  remember (Z.to_nat (start + timeoutMs - t)) as n eqn:Hn.
  revert t Hn. induction n as [n IH] using lt_wf_ind. intros t Hn.
  apply Hstep. intros Hlt _ _.
  apply (IH (Z.to_nat (start + timeoutMs - (t + period env)))); [|reflexivity].
  unfold period. lia.
Qed.

Lemma poll_cases (t : Z) :
  (timeoutMs <= t - start /\ poll env url start timeoutMs t = (false, t))
  \/ (t - start < timeoutMs /\ is_success (axios_get env t url) = true
      /\ poll env url start timeoutMs t = (true, t + Z.of_N (http_ms env)))
  \/ (t - start < timeoutMs /\ is_success (axios_get env t url) = false
      /\ is_abort (axios_get env t url) = true
      /\ poll env url start timeoutMs t = (false, t + Z.of_N (http_ms env)))
  \/ (t - start < timeoutMs /\ is_success (axios_get env t url) = false
      /\ is_abort (axios_get env t url) = false
      /\ poll env url start timeoutMs t
         = poll env url start timeoutMs (t + period env)).
Proof.
  destruct (Z_lt_dec (t - start) timeoutMs) as [Hlt|Hge].
  - destruct (is_success (axios_get env t url)) eqn:Hs.
    + right. left. auto using poll_success.
    + destruct (is_abort (axios_get env t url)) eqn:Ha.
      * right. right. left. auto using poll_abort.
      * right. right. right. repeat split; try assumption.
        unfold period. rewrite (poll_sleep env url start timeoutMs t) by assumption.
        f_equal. lia.
  - left. split; [lia|]. apply poll_expired. lia.
Qed.

Lemma poll_time (t : Z) :
  t <= snd (poll env url start timeoutMs t)
  /\ (timeoutMs <= t - start -> poll env url start timeoutMs t = (false, t))
  /\ (t - start < timeoutMs ->
      snd (poll env url start timeoutMs t) < start + timeoutMs + period env).
Proof.
  revert t. apply poll_induction. intros t IH.
  destruct (poll_cases t) as [[Hge Hp]|[(Hlt & Hs & Hp)|[(Hlt & Hs & Ha & Hp)|(Hlt & Hs & Ha & Hp)]]];
    rewrite Hp; cbn [snd]; unfold period in *.
  - repeat split; try lia.
  - repeat split; try lia.
  - repeat split; try lia.
  - destruct (IH Hlt Hs Ha) as (H1 & H2 & H3). split; [lia|]. split; [lia|].
    intros _.
    destruct (Z_lt_dec (t + (Z.of_N (http_ms env) + 5000) - start) timeoutMs) as [Hl|Hg].
    + apply H3. exact Hl.
    + rewrite H2 by lia. cbn [snd]. lia.
Qed.

Lemma poll_true_sound (t : Z) :
  fst (poll env url start timeoutMs t) = true ->
  exists k : nat,
    t + Z.of_nat k * period env - start < timeoutMs
    /\ is_success (axios_get env (t + Z.of_nat k * period env) url) = true
    /\ snd (poll env url start timeoutMs t)
       = t + Z.of_nat k * period env + Z.of_N (http_ms env)
    /\ forall j : nat, (j < k)%nat ->
         is_success (axios_get env (t + Z.of_nat j * period env) url) = false
         /\ is_abort (axios_get env (t + Z.of_nat j * period env) url) = false.
Proof.
  pattern t. revert t. apply poll_induction. cbv beta. intros t IH.
  destruct (poll_cases t) as [[Hge Hp]|[(Hlt & Hs & Hp)|[(Hlt & Hs & Ha & Hp)|(Hlt & Hs & Ha & Hp)]]];
    rewrite Hp; cbn [fst snd]; try discriminate.
  - intros _. exists 0%nat. replace (t + Z.of_nat 0 * period env) with t by lia.
    split; [lia|]. split; [assumption|]. split; [reflexivity|].
    intros j Hj. lia.
  - intros Htrue. destruct (IH Hlt Hs Ha Htrue) as (k & Hk1 & Hk2 & Hk3 & Hk4).
    exists (S k).
    replace (t + Z.of_nat (S k) * period env)
      with (t + period env + Z.of_nat k * period env) by lia.
    split; [assumption|]. split; [assumption|]. split; [assumption|].
    intros j Hj. destruct j as [|j].
    + replace (t + Z.of_nat 0 * period env) with t by lia. split; assumption.
    + replace (t + Z.of_nat (S j) * period env)
        with (t + period env + Z.of_nat j * period env) by lia.
      apply Hk4. lia.
Qed.

Lemma poll_false_cases (t : Z) :
  fst (poll env url start timeoutMs t) = false ->
  start + timeoutMs <= snd (poll env url start timeoutMs t)
  \/ is_abort (axios_get env (snd (poll env url start timeoutMs t)
                              - Z.of_N (http_ms env)) url) = true.
Proof.
  pattern t. revert t. apply poll_induction. cbv beta. intros t IH.
  destruct (poll_cases t) as [[Hge Hp]|[(Hlt & Hs & Hp)|[(Hlt & Hs & Ha & Hp)|(Hlt & Hs & Ha & Hp)]]];
    rewrite Hp; cbn [fst snd]; try discriminate.
  - intros _. left. lia.
  - intros _. right.
    replace (t + Z.of_N (http_ms env) - Z.of_N (http_ms env)) with t by lia.
    assumption.
  - intros Hf. apply (IH Hlt Hs Ha Hf).
Qed.

End PollingCases.

(** X8: [waitForTx] keeps its time budget: it never returns before it was
    called, returns at once with [false] when the timeout is not positive,
    and otherwise returns less than one polling period after the timeout;
    it changes nothing else of the world. *)
Theorem waitForTx_time_budget (env : Env) (apiUrl : string)
    (txId : option string) (timeoutMs : Z) (w : World) :
  let r := waitForTx env apiUrl txId timeoutMs w in
  now w <= now (fst r)
  /\ (timeoutMs <= 0 -> snd r = false /\ now (fst r) = now w)
  /\ (0 < timeoutMs -> now (fst r) < now w + timeoutMs + period env)
  /\ sent (fst r) = sent w
  /\ console (fst r) = console w
  /\ database (fst r) = database w.
Proof.
  unfold waitForTx. cbn.
  destruct (poll_time env (tx_url apiUrl txId) (now w) timeoutMs (now w))
    as (H1 & H2 & H3).
  split; [exact H1|]. split; [|split; [|repeat split]].
  - intros Hle. rewrite H2 by lia. split; reflexivity.
  - intros Hpos. apply H3. lia.
Qed.

(** X9: [waitForTx] answers [true] only when one of its polls, issued
    before the timeout, was answered ["success"], every earlier poll having
    been answered neither ["success"] nor an abort; it returns one round trip
    after that poll. *)
Theorem waitForTx_true_sound (env : Env) (apiUrl : string)
    (txId : option string) (timeoutMs : Z) (w : World) :
  snd (waitForTx env apiUrl txId timeoutMs w) = true ->
  exists k : nat,
    let t := now w + Z.of_nat k * period env in
    t - now w < timeoutMs
    /\ is_success (axios_get env t (tx_url apiUrl txId)) = true
    /\ now (fst (waitForTx env apiUrl txId timeoutMs w)) = t + Z.of_N (http_ms env)
    /\ forall j : nat, (j < k)%nat ->
         is_success (axios_get env (now w + Z.of_nat j * period env)
                               (tx_url apiUrl txId)) = false
         /\ is_abort (axios_get env (now w + Z.of_nat j * period env)
                                (tx_url apiUrl txId)) = false.
Proof.
  unfold waitForTx. cbn. intros H.
  exact (poll_true_sound env _ _ _ _ H).
Qed.

Lemma waitForTx_true_sound_witness :
  let e := Demo.env Demo.accepted (Demo.final_at 7000) 200 in
  exists k : nat,
    let t := now Demo.w0 + Z.of_nat k * period e in
    t - now Demo.w0 < 12000
    /\ is_success (axios_get e t (tx_url STACKS_API_TESTNET (Some "0xabc"))) = true
    /\ now (fst (waitForTx e STACKS_API_TESTNET (Some "0xabc") 12000 Demo.w0))
       = t + Z.of_N (http_ms e)
    /\ forall j : nat, (j < k)%nat ->
         is_success (axios_get e (now Demo.w0 + Z.of_nat j * period e)
                               (tx_url STACKS_API_TESTNET (Some "0xabc"))) = false
         /\ is_abort (axios_get e (now Demo.w0 + Z.of_nat j * period e)
                                (tx_url STACKS_API_TESTNET (Some "0xabc"))) = false.
Proof.
  apply (waitForTx_true_sound (Demo.env Demo.accepted (Demo.final_at 7000) 200)
           STACKS_API_TESTNET (Some "0xabc") 12000 Demo.w0).
  vm_compute. reflexivity.
Defined.

(** X10: when [waitForTx] answers [false], either the timeout has elapsed
    or its last poll was answered with an abort; the answer itself does not
    tell which. *)
Theorem waitForTx_false_cases (env : Env) (apiUrl : string)
    (txId : option string) (timeoutMs : Z) (w : World) :
  snd (waitForTx env apiUrl txId timeoutMs w) = false ->
  let t := now (fst (waitForTx env apiUrl txId timeoutMs w)) in
  now w + timeoutMs <= t
  \/ is_abort (axios_get env (t - Z.of_N (http_ms env)) (tx_url apiUrl txId)) = true.
Proof.
  unfold waitForTx. cbn. intros H.
  exact (poll_false_cases env _ _ _ _ H).
Qed.

Lemma waitForTx_false_cases_witness :
  let e := Demo.env Demo.accepted Demo.aborting 200 in
  let t := now (fst (waitForTx e STACKS_API_TESTNET (Some "0xabc") 180000 Demo.w0)) in
  now Demo.w0 + 180000 <= t
  \/ is_abort (axios_get e (t - Z.of_N (http_ms e))
                         (tx_url STACKS_API_TESTNET (Some "0xabc"))) = true.
Proof.
  apply (waitForTx_false_cases (Demo.env Demo.accepted Demo.aborting 200)
           STACKS_API_TESTNET (Some "0xabc") 180000 Demo.w0).
  vm_compute. reflexivity.
Defined.

(** X11: [/settle] answers within its time budget: the clock never goes
    back, and the answer comes less than one round trip, the 180000 ms of
    polling and one polling period after the request. *)
Theorem settle_time_budget (env : Env) (req : Request) (w : World) :
  now w <= now (fst (settle env req w))
  /\ now (fst (settle env req w))
     < now w + Z.of_N (http_ms env) + 180000 + period env.
Proof.
  unfold settle, period.
  destruct (paymentPayload req) as [pp|]; [|cbn; lia].
  destruct (paymentRequirements req) as [pr|]; [|cbn; lia].
  destruct (negb (Js.truthy (txHex_of pp))); [cbn; lia|].
  destruct (deserializeTransaction env _) as [tx|m]; [|cbn; lia].
  cbv zeta.
  destruct (node_answer env _ pr tx) as [i|i e r|m];
    cbn [txId_of error_of Js.truthy];
    [ | destruct (Js.truthy e) | ]; unfold waitForTx; cbn; try lia.
  - match goal with
    | |- context [poll env ?u ?s0 ?T ?t] =>
        destruct (poll_time env u s0 T t) as (H1 & _ & H3)
    end.
    unfold period in H3. lia.
  - match goal with
    | |- context [poll env ?u ?s0 ?T ?t] =>
        destruct (poll_time env u s0 T t) as (H1 & _ & H3)
    end.
    unfold period in H3. lia.
Qed.

(* ===================================================================== *)
(** ** Further properties of the query ledger *)
(* ===================================================================== *)

Lemma seqZ_snoc (n : nat) :
  seqZ 1 (Z.of_nat (S n)) = seqZ 1 (Z.of_nat n) ++ [Z.of_nat n + 1].
Proof.
  replace (Z.of_nat (S n)) with (Z.of_nat n + 1) by lia.
  rewrite seqZ_app by lia. f_equal.
  rewrite seqZ_cons by lia. rewrite seqZ_nil by lia. f_equal. lia.
Qed.

Lemma ids_of_reachable (db : Db.t) :
  reachable db ->
  map Db.id (Db.queries db) = seqZ 1 (Z.of_nat (length (Db.queries db)))
  /\ Db.queries_seq db = Z.of_nat (length (Db.queries db)).
Proof.
  induction 1 as [|t feedId payer txHash ms data db Hr [IHids IHseq]].
  - split; reflexivity.
  - unfold Db.recordQuery. cbn [Db.queries Db.queries_seq].
    rewrite map_app, length_app, IHids, IHseq. cbn [map length Db.id].
    replace (length (Db.queries db) + 1)%nat with (S (length (Db.queries db))) by lia.
    rewrite seqZ_snoc. split; [reflexivity|lia].
Qed.

(** X12: the identifiers of the recorded queries are 1, 2, ..., n in
    insertion order, and the AUTOINCREMENT counter is n: no identifier is
    reused or skipped. *)
Theorem reachable_ids (db : Db.t) :
  reachable db ->
  map Db.id (Db.queries db) = seqZ 1 (Z.of_nat (length (Db.queries db)))
  /\ Db.queries_seq db = Z.of_nat (length (Db.queries db)).
Proof.
  intros Hr. destruct (ids_of_reachable db Hr) as [Hids Hseq].
  split; assumption.
Qed.

Lemma reachable_ids_witness :
  let db := Db.recordQuery 2000 "btc-sentiment" None None 7 None
              (Db.recordQuery 1000 "whale-alerts" (Some "a") (Some "t") 5 None Db.init) in
  map Db.id (Db.queries db) = seqZ 1 (Z.of_nat (length (Db.queries db)))
  /\ Db.queries_seq db = Z.of_nat (length (Db.queries db)).
Proof.
  apply reachable_ids. apply reachable_record, reachable_record, reachable_init.
Defined.

Lemma find_id_absent (i : Z) (rows : list Db.QueryRow) :
  i ∉ map Db.id rows -> List.find (fun r => Db.id r =? i) rows = None.
Proof.
  induction rows as [|r rows IH]; [reflexivity|]. cbn. intros Hni.
  destruct (Z.eqb_spec (Db.id r) i) as [Heq|Hne].
  - exfalso. apply Hni. rewrite Heq. left.
  - apply IH. intros Hin. apply Hni. right. exact Hin.
Qed.

Lemma find_app_r {A : Type} (f : A -> bool) (l1 l2 : list A) :
  List.find f l1 = None -> List.find f (l1 ++ l2) = List.find f l2.
Proof.
  induction l1 as [|x l1 IH]; [reflexivity|]. cbn.
  destruct (f x); [discriminate|]. exact IH.
Qed.

Lemma find_app_l {A : Type} (f : A -> bool) (l1 l2 : list A) (x : A) :
  List.find f l1 = Some x -> List.find f (l1 ++ l2) = Some x.
Proof.
  induction l1 as [|y l1 IH]; [discriminate|]. cbn.
  destruct (f y); [trivial|]. exact IH.
Qed.

Lemma reachable_fresh_id (db : Db.t) :
  reachable db -> Db.queries_seq db + 1 ∉ map Db.id (Db.queries db).
Proof.
  intros Hr. destruct (ids_of_reachable db Hr) as [Hids Hseq].
  rewrite Hids, Hseq. intros Hin.
  apply list_elem_of_lookup in Hin as [k Hk].
  apply lookup_seqZ in Hk. lia.
Qed.

Lemma getQueryById_fresh (db : Db.t) (t : Z) (feedId : string)
    (payer txHash : option string) (ms : Z) (data : option FeedData) :
  reachable db ->
  Queries.getQueryById (Db.queries_seq db + 1)
                       (Db.recordQuery t feedId payer txHash ms data db)
  = Some {| Db.id := Db.queries_seq db + 1; Db.feed_id := feedId;
            Db.payer := Js.or_null payer; Db.tx_hash := Js.or_null txHash;
            Db.response_ms := ms; Db.response_data := option_map json data;
            Db.created_at := Db.unixepoch t |}.
Proof.
  intros Hr. unfold Queries.getQueryById, Db.recordQuery. cbn [Db.queries].
  rewrite find_app_r by (apply find_id_absent, reachable_fresh_id, Hr).
  cbn. rewrite Z.eqb_refl. reflexivity.
Qed.

(** X13: a recorded query can be read back under the identifier it was
    given, the next one after the counter, with the fields as they were
    passed (empty payer and transaction stored as NULL); every other
    identifier reads as before, and identifiers never given read as
    [undefined]. *)
Theorem getQueryById_recordQuery (db : Db.t) (t : Z) (feedId : string)
    (payer txHash : option string) (ms : Z) (data : option FeedData) (i : Z) :
  reachable db ->
  let db' := Db.recordQuery t feedId payer txHash ms data db in
  Queries.getQueryById (Db.queries_seq db + 1) db'
  = Some {| Db.id := Db.queries_seq db + 1; Db.feed_id := feedId;
            Db.payer := Js.or_null payer; Db.tx_hash := Js.or_null txHash;
            Db.response_ms := ms; Db.response_data := option_map json data;
            Db.created_at := Db.unixepoch t |}
  /\ (i <> Db.queries_seq db + 1 ->
      Queries.getQueryById i db' = Queries.getQueryById i db)
  /\ (i <= 0 \/ Db.queries_seq db < i -> Queries.getQueryById i db = None).
Proof.
  intros Hr db'. unfold Queries.getQueryById, db', Db.recordQuery.
  cbn [Db.queries]. split; [|split].
  - rewrite find_app_r by (apply find_id_absent, reachable_fresh_id, Hr).
    cbn. rewrite Z.eqb_refl. reflexivity.
  - intros Hne.
    destruct (List.find (fun r => Db.id r =? i) (Db.queries db)) as [r|] eqn:Hf.
    + apply find_app_l. exact Hf.
    + rewrite find_app_r by exact Hf. cbn.
      destruct (Z.eqb_spec (Db.queries_seq db + 1) i); [congruence|reflexivity].
  - intros Hout. apply find_id_absent.
    destruct (ids_of_reachable db Hr) as [Hids Hseq]. rewrite Hids. intros Hin.
    apply list_elem_of_lookup in Hin as [k Hk].
    apply lookup_seqZ in Hk. lia.
Qed.

Lemma getQueryById_recordQuery_witness :
  let db := Db.recordQuery 1000 "whale-alerts" (Some "a") (Some "t") 5 None Db.init in
  let db' := Db.recordQuery 2000 "btc-sentiment" (Some "") None 7
                            (Some {| json := "{}" |}) db in
  Queries.getQueryById (Db.queries_seq db + 1) db'
  = Some {| Db.id := Db.queries_seq db + 1; Db.feed_id := "btc-sentiment";
            Db.payer := Js.or_null (Some ""); Db.tx_hash := Js.or_null None;
            Db.response_ms := 7;
            Db.response_data := option_map json (Some {| json := "{}" |});
            Db.created_at := Db.unixepoch 2000 |}
  /\ (1 <> Db.queries_seq db + 1 ->
      Queries.getQueryById 1 db' = Queries.getQueryById 1 db)
  /\ (1 <= 0 \/ Db.queries_seq db < 1 -> Queries.getQueryById 1 db = None).
Proof.
  apply (getQueryById_recordQuery
           (Db.recordQuery 1000 "whale-alerts" (Some "a") (Some "t") 5 None Db.init)
           2000 "btc-sentiment" (Some "") None 7 (Some {| json := "{}" |}) 1).
  apply reachable_record, reachable_init.
Defined.

Lemma total_alter (g : Db.FeedStat -> Db.FeedStat) (k : string)
    (m : gmap string Db.FeedStat) (x : Db.FeedStat) :
  m !! k = Some x ->
  map_fold (fun _ s total => Db.total_queries s + total) 0 (alter g k m)
  = map_fold (fun _ s total => Db.total_queries s + total) 0 m
    + (Db.total_queries (g x) - Db.total_queries x).
Proof.
  intros Hk.
  rewrite <- (insert_delete_id m k x Hk) at 1 2.
  rewrite alter_insert_eq.
  rewrite !map_fold_insert_L;
    try (intros; lia); try (apply lookup_delete_eq).
Qed.

(** X14: recording a query for a feed that has a row in [feed_stats] adds
    one to the total of queries and changes no other feed's count; for a
    feed without such a row the query is still inserted, but no statistics
    change and the total stays behind the number of rows. *)
Theorem recordQuery_totals (db : Db.t) (t : Z) (feedId : string)
    (payer txHash : option string) (ms : Z) (data : option FeedData) :
  let db' := Db.recordQuery t feedId payer txHash ms data db in
  length (Db.queries db') = S (length (Db.queries db))
  /\ (forall other, other <> feedId ->
        Db.feed_stats db' !! other = Db.feed_stats db !! other)
  /\ (is_Some (Db.feed_stats db !! feedId) ->
      Queries.getTotalQueries db' = Queries.getTotalQueries db + 1)
  /\ (Db.feed_stats db !! feedId = None ->
      Db.feed_stats db' = Db.feed_stats db
      /\ Queries.getTotalQueries db' = Queries.getTotalQueries db).
Proof.
  intros db'. unfold db', Db.recordQuery, Queries.getTotalQueries.
  cbn [Db.queries Db.feed_stats]. split; [|split; [|split]].
  - rewrite length_app. cbn. lia.
  - intros other Hne. apply lookup_alter_ne. congruence.
  - intros [x Hx]. rewrite (total_alter _ _ _ x Hx). cbn. lia.
  - intros Hnone.
    assert (Hsame : alter (Db.updateStats t ms) feedId (Db.feed_stats db)
                    = Db.feed_stats db).
    { apply map_eq. intros j. destruct (decide (feedId = j)) as [->|Hne].
      - rewrite lookup_alter_eq, Hnone. reflexivity.
      - apply lookup_alter_ne. exact Hne. }
    rewrite Hsame. split; reflexivity.
Qed.

(** X15: the number of unique agents grows by one exactly when a query is
    recorded with a non-empty payer that no recorded query carries yet; a
    query without payer, with an empty one, or with a known one leaves it as
    it is. *)
Theorem getUniqueAgents_recordQuery (db : Db.t) (t : Z) (feedId : string)
    (payer txHash : option string) (ms : Z) (data : option FeedData) :
  Queries.getUniqueAgents (Db.recordQuery t feedId payer txHash ms data db)
  = Queries.getUniqueAgents db
    + match Js.or_null payer with
      | Some p => if bool_decide (p ∈ Queries.agents db) then 0 else 1
      | None => 0
      end.
Proof.
  unfold Queries.getUniqueAgents, Queries.agents, Db.recordQuery.
  cbn [Db.queries]. rewrite omap_app, list_to_set_app_L. cbn [omap Db.payer].
  destruct (Js.or_null payer) as [p|]; cbn.
  - rewrite (union_empty_r_L {[p]}).
    case_bool_decide as Hin.
    + assert (Heq : list_to_set (omap Db.payer (Db.queries db)) ∪ {[p]}
                    = (list_to_set (omap Db.payer (Db.queries db)) : gset string))
        by (rewrite (comm_L (∪)); apply subseteq_union_1_L, singleton_subseteq_l, Hin).
      rewrite Heq. lia.
    + rewrite size_union by set_solver. rewrite size_singleton. lia.
  - rewrite (right_id_L ∅ (∪)). lia.
Qed.

(* ===================================================================== *)
(** ** Further properties of the resource server *)
(* ===================================================================== *)

Import Dashboard.

#[local] Instance newer_total : Total Queries.newer.
Proof. intros r1 r2. unfold Queries.newer. lia. Qed.

#[local] Instance newer_trans : Transitive Queries.newer.
Proof. intros r1 r2 r3. unfold Queries.newer. lia. Qed.








Lemma settle_now_le (env : Env) (req : Request) (w : World) :
  now w <= now (fst (settle env req w)).
Proof.
  unfold settle.
  destruct (paymentPayload req) as [pp|]; [|cbn; lia].
  destruct (paymentRequirements req) as [pr|]; [|cbn; lia].
  destruct (negb (Js.truthy (txHex_of pp))); [cbn; lia|].
  destruct (deserializeTransaction env _) as [tx|m]; [|cbn; lia].
  cbv zeta.
  destruct (node_answer env _ pr tx) as [i|i e r|m];
    cbn [txId_of error_of Js.truthy];
    [ | destruct (Js.truthy e) | ]; unfold waitForTx; cbn; try lia.
  - match goal with
    | |- context [poll env ?u ?s0 ?T ?t] =>
        destruct (poll_time env u s0 T t) as (H1 & _ & _)
    end. lia.
  - match goal with
    | |- context [poll env ?u ?s0 ?T ?t] =>
        destruct (poll_time env u s0 T t) as (H1 & _ & _)
    end. lia.
Qed.

(** A request moves the clock forward, and either leaves the database as
    it is or records one query of a served feed at the time it ends. *)
Lemma handle_step (env : Env) (cfg : Config) (w : World) (c : Call) :
  now w <= now (handle env cfg w c)
  /\ (database (handle env cfg w c) = database w
      \/ exists f payer txHash ms data,
           database (handle env cfg w c)
           = Db.recordQuery (now (handle env cfg w c)) (feed_name f)
                            payer txHash ms data (database w)).
Proof.
  destruct c as [f payment|req|req|req]; cbn [handle].
  - unfold feed_handler, feed_finish, resume. cbn. split; [lia|].
    right. eauto 10.
  - unfold wallet_buy.
    destruct (negb _); [cbn; split; [lia|left; reflexivity]|].
    destruct (feed_of_id _) as [f|]; [|cbn; split; [lia|left; reflexivity]].
    unfold resume. cbn. split; [lia|]. right. eauto 10.
  - destruct (verify_world env req w) as (_ & Hnow & Hdb).
    rewrite Hnow, Hdb. split; [lia|left; reflexivity].
  - split; [apply settle_now_le|]. left. apply settle_keeps_database.
Qed.

Lemma unixepoch_mono (a b : Z) : a <= b -> Db.unixepoch a <= Db.unixepoch b.
Proof. intros H. unfold Db.unixepoch. apply Z.div_le_mono; lia. Qed.

Lemma ledger_kept_step (env : Env) (cfg : Config) (w : World) (c : Call) :
  ledger_kept w -> ledger_kept (handle env cfg w c).
Proof.
  intros (Hreach & Hkeys & Htotal & Hsorted & Hpast).
  destruct (handle_step env cfg w c) as [Hnow [Hdb|(f & payer & tx & ms & data & Hdb)]];
    unfold ledger_kept; rewrite Hdb.
  - repeat split; try assumption.
    eapply Forall_impl; [exact Hpast|]. cbn. intros r Hr.
    pose proof (unixepoch_mono _ _ Hnow). lia.
  - destruct (ids_of_reachable _ Hreach) as [Hids Hseq].
    split; [constructor; exact Hreach|]. split; [|split; [|split]].
    + intros g. unfold Db.recordQuery. cbn [Db.feed_stats].
      apply lookup_alter_is_Some, Hkeys.
    + unfold Queries.getTotalQueries, Db.recordQuery in *.
      cbn [Db.feed_stats Db.queries].
      destruct (Hkeys f) as [x Hx]. rewrite (total_alter _ _ _ x Hx).
      cbn in Htotal |- *. rewrite Htotal, length_app. cbn. lia.
    + unfold Db.recordQuery. cbn [Db.queries]. rewrite reverse_snoc.
      constructor; [exact Hsorted|].
      destruct (reverse (Db.queries (database w))) as [|r rest] eqn:Hrev;
        constructor.
      assert (Hin : r ∈ Db.queries (database w)).
      { rewrite <- elem_of_reverse, Hrev. left. }
      rewrite Forall_forall in Hpast. specialize (Hpast r Hin).
      assert (Hid : Db.id r ∈ map Db.id (Db.queries (database w))).
      { apply list_elem_of_fmap. exists r. split; [reflexivity|exact Hin]. }
      rewrite Hids in Hid. apply list_elem_of_lookup in Hid as [k Hk].
      apply lookup_seqZ in Hk.
      pose proof (unixepoch_mono _ _ Hnow).
      unfold Queries.newer. cbn. lia.
    + unfold Db.recordQuery. cbn [Db.queries]. apply Forall_app. split.
      * eapply Forall_impl; [exact Hpast|]. cbn. intros r Hr.
        pose proof (unixepoch_mono _ _ Hnow). lia.
      * repeat constructor. cbn. lia.
Qed.

Lemma ledger_kept_init (w : World) : database w = Db.init -> ledger_kept w.
Proof.
  intros Hdb. unfold ledger_kept. rewrite Hdb.
  split; [constructor|]. split; [|split; [|split]].
  - intros [| |]; vm_compute; eauto.
  - vm_compute. reflexivity.
  - constructor.
  - constructor.
Qed.

Lemma ledger_kept_serve (env : Env) (cfg : Config) (calls : list Call) (w : World) :
  ledger_kept w -> ledger_kept (serve env cfg calls w).
Proof.
  revert w. unfold serve.
  induction calls as [|c calls IH]; intros w Hw; [exact Hw|].
  cbn [fold_left]. apply IH, ledger_kept_step, Hw.
Qed.

Lemma same_id_same_row (rows : list Db.QueryRow) (x y : Db.QueryRow) :
  NoDup (map Db.id rows) -> x ∈ rows -> y ∈ rows -> Db.id x = Db.id y -> x = y.
Proof.
  induction rows as [|r rows IH]; intros Hnd Hx Hy Hid.
  - inversion Hx.
  - cbn in Hnd. apply NoDup_cons in Hnd as [Hnotin Hnd].
    apply elem_of_cons in Hx as [->|Hx]; apply elem_of_cons in Hy as [->|Hy].
    + reflexivity.
    + exfalso. apply Hnotin. rewrite Hid.
      apply list_elem_of_fmap. exists y. split; [reflexivity|exact Hy].
    + exfalso. apply Hnotin. rewrite <- Hid.
      apply list_elem_of_fmap. exists x. split; [reflexivity|exact Hx].
    + apply IH; assumption.
Qed.

(** X19: along every run of the server from a fresh database, over paid
    feeds, wallet purchases, verifications and settlements in any order, the
    per-feed counters add up to the number of recorded queries, and the
    identifiers of the records are 1, 2, ..., n. *)
Theorem serve_counts_every_query (env : Env) (cfg : Config)
    (calls : list Call) (w : World) :
  database w = Db.init ->
  let db := database (serve env cfg calls w) in
  Queries.getTotalQueries db = Z.of_nat (length (Db.queries db))
  /\ map Db.id (Db.queries db) = seqZ 1 (Z.of_nat (length (Db.queries db))).
Proof.
  intros Hinit db.
  destruct (ledger_kept_serve env cfg calls w (ledger_kept_init w Hinit))
    as (Hreach & _ & Htotal & _).
  split; [exact Htotal|]. apply (ids_of_reachable _ Hreach).
Qed.

Lemma serve_counts_every_query_witness :
  let e := Demo.env Demo.accepted (Demo.final_at 0) 200 in
  let calls := [GetFeed WhaleAlerts None;
                PostWalletBuy {| feedId := Some "defi-scores"; txId := Some "x";
                                 senderAddress := Some "y" |};
                PostSettle (Demo.request "5000R" (Js.Str "5000"))] in
  let db := database (serve e Demo.cfg calls Demo.w0) in
  Queries.getTotalQueries db = Z.of_nat (length (Db.queries db))
  /\ map Db.id (Db.queries db) = seqZ 1 (Z.of_nat (length (Db.queries db))).
Proof.
  apply (serve_counts_every_query (Demo.env Demo.accepted (Demo.final_at 0) 200)
           Demo.cfg _ Demo.w0).
  reflexivity.
Defined.

(** X20: along every run of the server from a fresh database, the recent
    queries are the last recorded ones, in the reverse of the order in which
    they were recorded. *)
Theorem serve_recent_is_reverse (env : Env) (cfg : Config)
    (calls : list Call) (w : World) (n : Z) :
  database w = Db.init ->
  let db := database (serve env cfg calls w) in
  Queries.getRecentQueries n db = Queries.limit n (reverse (Db.queries db)).
Proof.
  intros Hinit db.
  destruct (ledger_kept_serve env cfg calls w (ledger_kept_init w Hinit))
    as (Hreach & _ & _ & Hsorted & _).
  fold db in Hreach, Hsorted.
  unfold Queries.getRecentQueries. f_equal.
  apply (Sorted_unique_strong Queries.newer).
  - intros x1 x2 Hx1 Hx2 H12 H21.
    apply (same_id_same_row (Db.queries db)).
    + destruct (ids_of_reachable _ Hreach) as [Hids _]. rewrite Hids.
      apply NoDup_seqZ.
    + rewrite <- (merge_sort_Permutation Queries.newer). exact Hx1.
    + rewrite <- elem_of_reverse. exact Hx2.
    + unfold Queries.newer in H12, H21. lia.
  - apply Sorted_merge_sort. apply _.
  - exact Hsorted.
  - rewrite merge_sort_Permutation, reverse_Permutation. reflexivity.
Qed.

Lemma serve_recent_is_reverse_witness :
  let e := Demo.env Demo.accepted (Demo.final_at 0) 200 in
  let calls := [GetFeed WhaleAlerts None; GetFeed BtcSentiment None;
                GetFeed DefiScores None] in
  let db := database (serve e Demo.cfg calls Demo.w0) in
  Queries.getRecentQueries 2 db = Queries.limit 2 (reverse (Db.queries db)).
Proof.
  apply (serve_recent_is_reverse (Demo.env Demo.accepted (Demo.final_at 0) 200)
           Demo.cfg _ Demo.w0 2).
  reflexivity.
Defined.

Lemma element_in (l : list string) (i : Z) :
  0 <= i < Z.of_nat (length l) -> element l i ∈ l.
Proof.
  intros Hi. unfold element. destruct (Z.ltb_spec i 0); [lia|].
  destruct (lookup_lt_is_Some_2 l (Z.to_nat i)) as [x Hx]; [lia|].
  rewrite Hx. cbn. eapply list_elem_of_lookup_2. exact Hx.
Qed.

(** X21: the name of an agent is ["Unknown"] for the empty address, and
    for every other address a prefix and a suffix of the two tables followed
    by a dash and a number below 100: the indices computed from the hash
    never leave the tables. *)
Theorem getAgentName_in_tables (address : string) :
  address <> "" ->
  getAgentName "" = "Unknown"
  /\ exists p s n,
       p ∈ AGENT_PREFIXES /\ s ∈ AGENT_SUFFIXES /\ 0 <= n < 100
       /\ getAgentName address = p +:+ s +:+ "-" +:+ pretty n.
Proof.
  intros Hne. split; [reflexivity|]. unfold getAgentName.
  destruct (String.eqb_spec address ""); [contradiction|]. cbv zeta.
  eexists _, _, _. split; [|split; [|split; [|reflexivity]]].
  - apply element_in. apply Z.rem_bound_pos; [apply Z.abs_nonneg|cbn; lia].
  - apply element_in. apply Z.rem_bound_pos; [apply Z.abs_nonneg|cbn; lia].
  - apply Z.rem_bound_pos; [apply Z.abs_nonneg|lia].
Qed.

Lemma getAgentName_in_tables_witness :
  getAgentName "" = "Unknown"
  /\ exists p s n,
       p ∈ AGENT_PREFIXES /\ s ∈ AGENT_SUFFIXES /\ 0 <= n < 100
       /\ getAgentName "ST1PQHQKV0RJXZFY1DGX8MNSNYVE3VGZJSRTPGZGM"
          = p +:+ s +:+ "-" +:+ pretty n.
Proof.
  apply (getAgentName_in_tables "ST1PQHQKV0RJXZFY1DGX8MNSNYVE3VGZJSRTPGZGM").
  discriminate.
Defined.

(** X22: one step of the agent hash is the 32-bit wrap of [31 * hash + c]:
    the inner wrap of [hash << 5] does not change the result, and the hash
    stays a signed 32-bit integer. *)
Theorem hash_step_wraps (hash c : Z) :
  hash_step hash c = to_int32 (31 * hash + c)
  /\ - 2 ^ 31 <= hash_step hash c < 2 ^ 31.
Proof.
  unfold hash_step, to_int32. rewrite Z.shiftl_mul_pow2 by lia. split.
  - f_equal.
    replace (hash * 2 ^ 5 + 2 ^ 31) with (32 * hash + 2 ^ 31) by lia.
    replace ((32 * hash + 2 ^ 31) mod 2 ^ 32 - 2 ^ 31 - hash + c + 2 ^ 31)
      with ((32 * hash + 2 ^ 31) mod 2 ^ 32 + (c - hash)) by lia.
    rewrite Zplus_mod_idemp_l. f_equal. lia.
  - match goal with
    | |- _ <= ?a mod ?m - _ < _ => pose proof (Z.mod_pos_bound a m ltac:(lia))
    end. lia.
Qed.

(** X23: for a timestamp that is not in the future, [formatTimeAgo] prints
    seconds below 60, minutes from 1 to 59, hours from 1 to 23, or days from
    1 on. *)
Theorem formatTimeAgo_units (now timestampMs : Z) :
  timestampMs <= now ->
  exists n,
    (formatTimeAgo now timestampMs = pretty n +:+ "s ago" /\ 0 <= n < 60)
    \/ (formatTimeAgo now timestampMs = pretty n +:+ "m ago" /\ 1 <= n < 60)
    \/ (formatTimeAgo now timestampMs = pretty n +:+ "h ago" /\ 1 <= n < 24)
    \/ (formatTimeAgo now timestampMs = pretty n +:+ "d ago" /\ 1 <= n).
Proof.
  intros Hle. unfold formatTimeAgo. cbv zeta.
  destruct (Z.ltb_spec (now - timestampMs) 60000).
  { eexists. left. split; [reflexivity|].
    split; [apply Z.div_pos; lia|apply Z.div_lt_upper_bound; lia]. }
  destruct (Z.ltb_spec (now - timestampMs) 3600000).
  { eexists. right. left. split; [reflexivity|].
    split; [apply Z.div_le_lower_bound; lia|apply Z.div_lt_upper_bound; lia]. }
  destruct (Z.ltb_spec (now - timestampMs) 86400000).
  { eexists. right. right. left. split; [reflexivity|].
    split; [apply Z.div_le_lower_bound; lia|apply Z.div_lt_upper_bound; lia]. }
  eexists. right. right. right. split; [reflexivity|].
  apply Z.div_le_lower_bound; lia.
Qed.

Lemma formatTimeAgo_units_witness :
  exists n,
    (formatTimeAgo 7300000 0 = pretty n +:+ "s ago" /\ 0 <= n < 60)
    \/ (formatTimeAgo 7300000 0 = pretty n +:+ "m ago" /\ 1 <= n < 60)
    \/ (formatTimeAgo 7300000 0 = pretty n +:+ "h ago" /\ 1 <= n < 24)
    \/ (formatTimeAgo 7300000 0 = pretty n +:+ "d ago" /\ 1 <= n).
Proof. apply (formatTimeAgo_units 7300000 0). lia. Defined.

Lemma startsWith_nonempty (p h : string) :
  p <> "" -> Js.startsWith p h = true -> h <> "".
Proof.
  intros Hp Hs ->. unfold Js.startsWith in Hs.
  destruct p; [contradiction|discriminate].
Qed.

(** X24: in an entry of GET /activity a query is flagged on-chain exactly
    when it has a transaction hash that does not start with ["demo_"], a
    demo query is never flagged on-chain, and the explorer link is present
    exactly for the queries flagged on-chain: nothing but the text of the
    hash decides. *)
Theorem activity_item_flags (cfg : Config) (now : Z) (q : Db.QueryRow) :
  let a := activity_item cfg now q in
  (is_onchain a = Some true
   <-> exists h, Db.tx_hash q = Some h /\ h <> ""
                 /\ Js.startsWith "demo_" h = false)
  /\ (is_demo a = true -> is_onchain a = Some false)
  /\ (is_Some (item_tx_explorer a) <-> is_onchain a = Some true).
Proof.
  unfold activity_item. cbn. unfold isDemo, Js.truthy.
  destruct (Db.tx_hash q) as [h|].
  - destruct (String.eqb_spec h "") as [->|Hne]; cbn.
    + split; [|split].
      * split; [discriminate|]. intros (h & Hh & Hn & _). congruence.
      * discriminate.
      * split; [intros [? ?]|]; discriminate.
    + destruct (Js.startsWith "demo_" h) eqn:Hd; cbn.
      * split; [|split].
        -- split; [discriminate|]. intros (h' & Hh & _ & Hs). congruence.
        -- reflexivity.
        -- split; [intros [? ?]|]; discriminate.
      * split; [|split].
        -- split; [|reflexivity]. intros _. exists h. auto.
        -- discriminate.
        -- split; [reflexivity|]. intros _. eauto.
  - cbn. split; [|split].
    + split; [discriminate|]. intros (h & Hh & _). discriminate.
    + discriminate.
    + split; [intros [? ?]|]; discriminate.
Qed.


Example getAgentName_abc : getAgentName "abc" = "VectorSpark-1".
Proof. vm_compute. reflexivity. Qed.

(** The euro sign (U+20AC, bytes E2 82 AC) is the one code unit 8364. *)
Example getAgentName_euro :
  getAgentName (String "226" (String "130" (String "172" "")))%char
  = "AlphaFox-0".
Proof. reflexivity. Qed.

(** A character outside the basic plane (U+1F600, bytes F0 9F 98 80) is a
    surrogate pair. *)
Example charCodes_surrogates :
  charCodes (String "240" (String "159" (String "152" (String "128" ""))))%char
  = [55357; 56832].
Proof. reflexivity. Qed.

Example formatTimeAgo_future : formatTimeAgo 0 5000 = "-5s ago".
Proof. vm_compute. reflexivity. Qed.

(** X26: what a paid route returns can afterwards be read without payment:
    once the handler behind the access gate has answered, GET /activity/<id>/data
    with the identifier of the new record answers 200 with the very data of
    the paid answer, its feed, payer and transaction. *)
Theorem paid_data_is_readable (env : Env) (cfg : Config) (f : Feed)
    (payment : option Payment) (w : World) :
  reachable (database w) ->
  json (generated (feed_begin env f w)) <> "" ->
  let r := feed_handler env cfg f payment w in
  exists d,
    activity_data (Some (Db.queries_seq (database w) + 1)) (fst r)
    = json_ok (Data d)
    /\ stored d = Some (data (body (snd r)))
    /\ data_feed d = feed (body (snd r))
    /\ data_tx_hash d = tx (body (snd r)).
Proof.
  intros Hr Hjson r. subst r.
  unfold activity_data, feed_handler, feed_finish. cbn [fst snd database with_database].
  rewrite (getQueryById_fresh _ _ _ _ _ _ _ Hr).
  eexists. split; [reflexivity|]. cbn.
  unfold feed_begin in Hjson. cbn in Hjson.
  destruct (fst (generate env f (now w))) as [text]. cbn in *.
  destruct (String.eqb_spec text ""); [contradiction|]. cbn.
  repeat split.
Qed.

Lemma paid_data_is_readable_witness :
  let e := Demo.env Demo.accepted (Demo.final_at 0) 200 in
  let paid := Some {| payment_payer := Some "ST6d78";
                      payment_transaction := Some "0xabc" |} in
  let r := feed_handler e Demo.cfg WhaleAlerts paid Demo.w0 in
  exists d,
    activity_data (Some (Db.queries_seq (database Demo.w0) + 1)) (fst r)
    = json_ok (Data d)
    /\ stored d = Some (data (body (snd r)))
    /\ data_feed d = feed (body (snd r))
    /\ data_tx_hash d = tx (body (snd r)).
Proof.
  apply (paid_data_is_readable (Demo.env Demo.accepted (Demo.final_at 0) 200)
           Demo.cfg WhaleAlerts
           (Some {| payment_payer := Some "ST6d78";
                    payment_transaction := Some "0xabc" |}) Demo.w0).
  - apply reachable_init.
  - discriminate.
Defined.

(** X27: a wallet purchase is shown as paid on-chain: after POST /wallet/buy
    with a transaction identifier that does not start with ["demo_"], GET
    /activity/<id>/data for the new record answers 200 with [is_onchain]
    true, that identifier as transaction hash and the sender as agent,
    although no transaction was looked at. *)
Theorem wallet_purchase_shown_onchain (env : Env) (cfg : Config)
    (req : WalletRequest) (w : World) (i : string) (f : Feed)
    (t sender : string) :
  reachable (database w) ->
  feedId req = Some i -> feed_of_id i = Some f ->
  txId req = Some t -> t <> "" -> Js.startsWith "demo_" t = false ->
  senderAddress req = Some sender -> sender <> "" ->
  let w' := fst (wallet_buy env cfg req w) in
  exists d,
    activity_data (Some (Db.queries_seq (database w) + 1)) w' = json_ok (Data d)
    /\ data_is_onchain d = true
    /\ data_is_demo d = false
    /\ data_tx_hash d = Some t
    /\ data_agent d = Some sender
    /\ sent w' = sent w.
Proof.
  intros Hr Hi Hf Ht Htne Hdemo Hs Hsne w'. subst w'.
  destruct (feed_of_id_name i f Hf) as [Hname Hine].
  unfold wallet_buy. rewrite Hi, Ht, Hs.
  rewrite !truthy_nonempty by assumption. cbn [andb negb Js.or_else].
  destruct (String.eqb_spec i ""); [contradiction|]. rewrite Hf.
  unfold activity_data. cbn [fst database with_database].
  rewrite (getQueryById_fresh _ _ _ _ _ _ _ Hr).
  eexists. split; [reflexivity|].
  cbn. unfold Js.or_null, Js.truthy.
  destruct (String.eqb_spec t ""); [contradiction|].
  destruct (String.eqb_spec sender ""); [contradiction|].
  cbn. rewrite Hdemo.
  destruct (String.eqb_spec t ""); [contradiction|].
  repeat split.
Qed.

Lemma wallet_purchase_shown_onchain_witness :
  let e := Demo.env Demo.rejected Demo.never 200 in
  let req := {| feedId := Some "defi-scores"; txId := Some "anything";
                senderAddress := Some "anyone" |} in
  let w' := fst (wallet_buy e Demo.cfg req Demo.w0) in
  exists d,
    activity_data (Some (Db.queries_seq (database Demo.w0) + 1)) w'
    = json_ok (Data d)
    /\ data_is_onchain d = true
    /\ data_is_demo d = false
    /\ data_tx_hash d = Some "anything"
    /\ data_agent d = Some "anyone"
    /\ sent w' = sent Demo.w0.
Proof.
  apply (wallet_purchase_shown_onchain (Demo.env Demo.rejected Demo.never 200)
           Demo.cfg
           {| feedId := Some "defi-scores"; txId := Some "anything";
              senderAddress := Some "anyone" |}
           Demo.w0 "defi-scores" DefiScores "anything" "anyone");
    try reflexivity; try discriminate.
  apply reachable_init.
Defined.

(** X28: GET /activity/:id/data answers 400 when the identifier is not a
    number and 404 when no query was recorded under it; in a database that
    [recordQuery] built it answers 200 exactly for the identifiers 1 to n. *)
Theorem activity_data_status (i : Z) (w : World) :
  reachable (database w) ->
  status (activity_data None w) = 400
  /\ (1 <= i <= Db.queries_seq (database w) ->
      status (activity_data (Some i) w) = 200)
  /\ (i < 1 \/ Db.queries_seq (database w) < i ->
      status (activity_data (Some i) w) = 404).
Proof.
  intros Hr. unfold activity_data. split; [reflexivity|].
  destruct (ids_of_reachable _ Hr) as [Hids Hseq]. split.
  - intros Hi. unfold Queries.getQueryById.
    destruct (List.find _ _) as [q|] eqn:Hf; [reflexivity|].
    exfalso.
    assert (Hin : i ∈ map Db.id (Db.queries (database w))).
    { rewrite Hids. apply list_elem_of_lookup. exists (Z.to_nat (i - 1)).
      apply lookup_seqZ. lia. }
    apply list_elem_of_fmap in Hin as (q & Hq & Hqin).
    apply list_elem_of_In in Hqin.
    pose proof (find_none _ _ Hf q Hqin) as Hno. cbn in Hno. lia.
  - intros Hout. unfold Queries.getQueryById.
    rewrite find_id_absent; [reflexivity|].
    rewrite Hids. intros Hin. apply list_elem_of_lookup in Hin as [k Hk].
    apply lookup_seqZ in Hk. lia.
Qed.

Lemma activity_data_status_witness :
  let w := with_database
             (Db.recordQuery 1000 "whale-alerts" (Some "a") (Some "t") 5 None)
             Demo.w0 in
  status (activity_data None w) = 400
  /\ (1 <= 1 <= Db.queries_seq (database w) ->
      status (activity_data (Some 1) w) = 200)
  /\ (1 < 1 \/ Db.queries_seq (database w) < 1 ->
      status (activity_data (Some 1) w) = 404).
Proof.
  apply (activity_data_status 1
           (with_database
              (Db.recordQuery 1000 "whale-alerts" (Some "a") (Some "t") 5 None)
              Demo.w0)).
  apply reachable_record, reachable_init.
Defined.
